(** * Ubuntu Pro reconciliation module ([plugins/modules/pro.py])

    A shallow embedding of the Ansible module that drives the [pro]
    command line tool, and the properties of its status interpretation,
    its plan computation and its sequencing of external invocations.

    Python values are embedded as the inductive type [pyval]; a [dict]
    decoded from JSON is a finite map with string keys, the set of
    enabled services is a finite set of strings, and the calls to
    [module.run_command], [module.fail_json] and [module.exit_json] are
    threaded through a small state-and-exit monad that records every
    external invocation together with its answer. *)

From Stdlib Require Import ZArith Ascii String Floats.SpecFloat.
From stdpp Require Import gmap strings list fin_maps.

Set Warnings "-register-all".
Local Open Scope string_scope.

(** ** Python values *)

(** The values [json.loads] can produce, which are also the values the
    module stores in its result dictionary.  [PNone] is Python's [None]
    (JSON [null]); integers are unbounded; a float is an IEEE-754 value. *)
Inductive pyval : Type :=
| PNone
| PBool (b : bool)
| PInt (z : Z)
| PFloat (f : spec_float)
| PStr (s : string)
| PList (l : list pyval)
| PDict (d : gmap string pyval).

(** The exceptions the module can let escape. *)
Inductive pyexc : Type :=
| AttributeError
| TypeError.

(** [bool(v)]: Python's truth value testing. *)
Definition truthy (v : pyval) : bool :=
  match v with
  | PNone => false
  | PBool b => b
  | PInt z => negb (z =? 0)%Z
  | PFloat (S754_zero _) => false
  | PFloat _ => true
  | PStr s => negb (String.eqb s "")
  | PList l => negb (bool_decide (l = []))
  | PDict d => negb (bool_decide (d = ∅))
  end.

(** [d.get(k)]: the value under [k], or [None]. *)
Definition dict_get (d : gmap string pyval) (k : string) : pyval :=
  default PNone (d !! k).

(** [str.lower()].  A string is held as its UTF-8 bytes; the letters
    [A]..[Z] are mapped to [a]..[z] and every other byte is kept.  No
    code point outside ASCII lowers to a letter of the words in
    [_ENABLED], so membership in [_ENABLED] after lowering is the same
    as under Python's Unicode-aware [lower]. *)
Definition ascii_lower (c : ascii) : ascii :=
  let n := N_of_ascii c in
  if ((65 <=? n) && (n <=? 90))%N then ascii_of_N (n + 32) else c.

Fixpoint lower (s : string) : string :=
  match s with
  | EmptyString => EmptyString
  | String c s' => String (ascii_lower c) (lower s')
  end.

(** ** Status interpretation *)

Definition _ENABLED : list string := ["enabled"; "active"; "on"].

(** [_service_enabled(service)]. *)
Definition _service_enabled (service : gmap string pyval) : bool :=
  match service !! "enabled" with
  | Some v => truthy v
  | None =>
      match dict_get service "status" with
      | PStr status => bool_decide (lower status ∈ _ENABLED)
      | _ =>
          match dict_get service "state" with
          | PStr state => bool_decide (lower state ∈ _ENABLED)
          | _ => false
          end
      end
  end.

(** The normalization rule as the specification words it: an explicit
    boolean [enabled] field first, else a textual [status], else a
    textual [state], else disabled. *)
Definition normalize_by_precedence (service : gmap string pyval) : bool :=
  match service !! "enabled" with
  | Some (PBool b) => b
  | _ =>
      match service !! "status" with
      | Some (PStr status) => bool_decide (lower status ∈ ["enabled"; "active"; "on"])
      | _ =>
          match service !! "state" with
          | Some (PStr state) => bool_decide (lower state ∈ ["enabled"; "active"; "on"])
          | _ => false
          end
      end
  end.

(** [s.add(name)] on a set observed only through [svc in s] for strings
    [svc].  A [list] or a [dict] is unhashable.  Any other value that is
    not a string is added by Python, but never compares equal to a
    string, so the model only keeps the strings. *)
Definition set_add (name : pyval) (s : gset string) : pyexc + gset string :=
  match name with
  | PStr n => inr ({[n]} ∪ s)
  | PList _ | PDict _ => inl TypeError
  | _ => inr s
  end.

(** One iteration of the loop of [_collect_enabled_services]; only a
    [dict] has a [get] method. *)
Definition collect_step (current_enabled : gset string) (svc : pyval)
  : pyexc + gset string :=
  match svc with
  | PDict d =>
      let name := dict_get d "name" in
      if negb (truthy name) then inr current_enabled
      else if _service_enabled d then set_add name current_enabled
      else inr current_enabled
  | _ => inl AttributeError
  end.

Fixpoint collect_loop (current_enabled : gset string) (entries : list pyval)
  : pyexc + gset string :=
  match entries with
  | [] => inr current_enabled
  | svc :: rest =>
      match collect_step current_enabled svc with
      | inl e => inl e
      | inr current_enabled' => collect_loop current_enabled' rest
      end
  end.

(** The items a [for] loop draws from a value: the elements of a list,
    the keys of a dict, the characters of a string; anything else is not
    iterable. *)
Fixpoint chars (s : string) : list pyval :=
  match s with
  | EmptyString => []
  | String c s' => PStr (String c EmptyString) :: chars s'
  end.

Definition py_iter (v : pyval) : pyexc + list pyval :=
  match v with
  | PList l => inr l
  | PDict d => inr (PStr <$> (map_to_list d).*1)
  | PStr s => inr (chars s)
  | _ => inl TypeError
  end.

(** [status.get("services", []) if isinstance(status, dict) else []] *)
Definition service_entries (status : pyval) : pyval :=
  match status with
  | PDict d => default (PList []) (d !! "services")
  | _ => PList []
  end.

(** [_collect_enabled_services(status)]. *)
Definition _collect_enabled_services (status : pyval) : pyexc + gset string :=
  match py_iter (service_entries status) with
  | inl e => inl e
  | inr entries => collect_loop ∅ entries
  end.

(** [_status_attached(status)]. *)
Definition _status_attached (status : pyval) : bool :=
  match status with
  | PDict d =>
      match d !! "attached" with
      | Some v => truthy v
      | None => false
      end
  | _ => false
  end.

(** ** The plan *)

(** The two values the [state] option admits ([choices]). *)
Inductive target : Type :=
| Attached
| Detached.

#[global] Instance target_eq_dec : EqDecision target :=
  ltac:(solve_decision).

(** Truth value of a list: non-empty. *)
Definition nonempty {A : Type} (l : list A) : bool :=
  match l with
  | [] => false
  | _ :: _ => true
  end.

Module Plan.

(** [(state == "attached" or enabled or disabled) and not attached],
    as a truth value. *)
Definition attach_needed (state : option target) (enabled disabled : list string)
    (attached : bool) : bool :=
  (bool_decide (state = Some Attached) || nonempty enabled || nonempty disabled)
  && negb attached.

(** [state == "detached" and attached] *)
Definition detach_needed (state : option target) (attached : bool) : bool :=
  bool_decide (state = Some Detached) && attached.

(** [[svc for svc in enabled if svc not in current_enabled]] *)
Definition to_enable (enabled : list string) (current_enabled : gset string)
  : list string :=
  filter (λ svc, svc ∉ current_enabled) enabled.

(** [[svc for svc in disabled if svc in current_enabled]] *)
Definition to_disable (disabled : list string) (current_enabled : gset string)
  : list string :=
  filter (λ svc, svc ∈ current_enabled) disabled.

End Plan.

(** ** External invocations and module exits *)

(** What [module.run_command] answers: exit code, stdout, stderr. *)
Definition answer : Type := Z * string * string.

(** The machine the module runs on, and the record of every external
    invocation made so far with the answer it got. *)
Record mstate (World : Type) : Type := MState {
  world : World;
  calls : list (list string * answer)
}.
Arguments MState {World} _ _.
Arguments world {World} _.
Arguments calls {World} _.

(** How a piece of the module ends: it returns a value, or the process
    leaves through [module.exit_json] or [module.fail_json] with the
    keyword arguments given, or an exception escapes. *)
Inductive outcome (A : Type) : Type :=
| Return (a : A)
| ExitJson (kwargs : gmap string pyval)
| FailJson (kwargs : gmap string pyval)
| Raise (e : pyexc).
Arguments Return {A} _.
Arguments ExitJson {A} _.
Arguments FailJson {A} _.
Arguments Raise {A} _.

Definition M (World : Type) (A : Type) : Type :=
  mstate World → outcome A * mstate World.

#[global] Instance M_ret {World} : MRet (M World) :=
  λ A a st, (Return a, st).

#[global] Instance M_bind {World} : MBind (M World) :=
  λ A B k m st,
    match m st with
    | (Return a, st') => k a st'
    | (ExitJson kw, st') => (ExitJson kw, st')
    | (FailJson kw, st') => (FailJson kw, st')
    | (Raise e, st') => (Raise e, st')
    end.

Definition exit_json {World A} (kwargs : gmap string pyval) : M World A :=
  λ st, (ExitJson kwargs, st).

Definition fail_json {World A} (kwargs : gmap string pyval) : M World A :=
  λ st, (FailJson kwargs, st).

(** A computation that may raise, run inside the module. *)
Definition lift {World A} (r : pyexc + A) : M World A :=
  match r with
  | inl e => λ st, (Raise e, st)
  | inr a => mret a
  end.

(** A list of strings as a Python value. *)
Definition str_list (l : list string) : pyval := PList (PStr <$> l).

(** The module parameters, after [AnsibleModule] has checked them
    against [argument_spec]. *)
Record params : Type := Params {
  p_state : option target;
  p_token : option string;
  p_enabled : option (list string);
  p_disabled : option (list string)
}.

(** Truth value of [token]: present and not the empty string. *)
Definition token_given (token : option string) : bool :=
  match token with
  | Some t => negb (String.eqb t "")
  | None => false
  end.

Section Pro.
Context {World : Type}.

(** [module.run_command]: the external Command Runner. *)
Variable run_command : list string → World → answer * World.

(** [json.loads]; [None] stands for the [ValueError] it raises on
    text that is not JSON. *)
Variable json_loads : string → option pyval.

(** The path [module.get_bin_path("pro", required=True)] resolved. *)
Variable pro : string.

Definition module_run_command (args : list string) : M World answer :=
  λ st,
    let '(r, w') := run_command args (world st) in
    (Return r, MState w' (calls st ++ [(args, r)])).

(** The keyword arguments of the [fail_json] call of [_execute]. *)
Definition command_failed (rc : Z) (out err : string) (args : list string)
  : gmap string pyval :=
  {[ "msg" := PStr "command failed"; "rc" := PInt rc; "stdout" := PStr out;
     "stderr" := PStr err; "cmd" := str_list args ]}.

(** What [_execute] makes of the stdout of a successful command:
    [None] when it is empty, the decoded JSON, or the text wrapped
    under [raw] when decoding raises [ValueError]. *)
Definition parsed (out : string) : pyval :=
  if String.eqb out "" then PNone
  else
    match json_loads out with
    | Some v => v
    | None => PDict {[ "raw" := PStr out ]}
    end.

(** [_execute(module, args)]. *)
Definition _execute (args : list string) : M World (pyval * string * string) :=
  '(rc, out, err) ← module_run_command args;
  if negb (rc =? 0)%Z then fail_json (command_failed rc out err args)
  else mret (parsed out, out, err).

(** The argument vector of the status read. *)
Definition status_args : list string :=
  [pro; "status"; "--wait"; "--format=json"].

(** [_get_status(module, pro)]. *)
Definition _get_status : M World pyval :=
  '(status, _, _) ← _execute status_args;
  mret status.

(** The four actions.  Each returns [True] together with the result
    dictionary it has updated. *)
Definition _maybe_attach (token : string) (result : gmap string pyval)
  : M World (bool * gmap string pyval) :=
  '(attach_result, _, _) ← _execute [pro; "attach"; "--format=json"; token];
  mret (true, <["attach_result" := attach_result]> result).

Definition _maybe_detach (result : gmap string pyval)
  : M World (bool * gmap string pyval) :=
  '(detach_result, _, _) ← _execute [pro; "detach"; "--assume-yes"; "--format=json"];
  mret (true, <["detach_result" := detach_result]> result).

Definition _maybe_enable_services (to_enable : list string)
    (result : gmap string pyval) : M World (bool * gmap string pyval) :=
  '(enable_result, _, _) ←
    _execute ([pro; "enable"; "--assume-yes"; "--format=json"] ++ to_enable);
  mret (true, <["enabled" := str_list to_enable]>
                (<["enable_result" := enable_result]> result)).

Definition _maybe_disable_services (to_disable : list string)
    (result : gmap string pyval) : M World (bool * gmap string pyval) :=
  '(disable_result, _, _) ←
    _execute ([pro; "disable"; "--assume-yes"; "--format=json"] ++ to_disable);
  mret (true, <["disabled" := str_list to_disable]>
                (<["disable_result" := disable_result]> result)).

(** The result dictionary the check-mode branch of [main] builds. *)
Definition check_mode_result (attach_needed detach_needed : bool)
    (to_enable to_disable : list string) (result : gmap string pyval)
  : gmap string pyval :=
  let changed :=
    attach_needed || detach_needed || nonempty to_enable || nonempty to_disable in
  let result := <["changed" := PBool changed]> result in
  let result :=
    if nonempty to_enable then <["enabled" := str_list to_enable]> result
    else result in
  let result :=
    if nonempty to_disable then <["disabled" := str_list to_disable]> result
    else result in
  result.

(** The check-mode branch of [main]. *)
Definition check_mode_exit (attach_needed detach_needed : bool)
    (to_enable to_disable : list string) (result : gmap string pyval)
  : M World unit :=
  exit_json
    (check_mode_result attach_needed detach_needed to_enable to_disable result).

(** The detach-or-attach step of [main]; after an attach the status is
    read again and both lists are computed again. *)
Definition attach_or_detach (attach_needed detach_needed : bool)
    (token : option string) (enabled disabled : list string)
    (to_enable to_disable : list string) (changed : bool)
    (result : gmap string pyval)
  : M World (bool * gmap string pyval * list string * list string) :=
  if detach_needed then
    '(c, result) ← _maybe_detach result;
    mret (changed || c, result, to_enable, to_disable)
  else if attach_needed && token_given token then
    (* [token] is a non-empty string here *)
    '(c, result) ← _maybe_attach (default "" token) result;
    status ← _get_status;
    let result := <["status" := status]> result in
    current_enabled ← lift (_collect_enabled_services status);
    mret (changed || c, result,
          Plan.to_enable enabled current_enabled,
          Plan.to_disable disabled current_enabled)
  else mret (changed, result, to_enable, to_disable).

(** [if to_enable: changed |= _maybe_enable_services(...)] *)
Definition enable_step (to_enable : list string) (changed : bool)
    (result : gmap string pyval) : M World (bool * gmap string pyval) :=
  if nonempty to_enable then
    '(c, result) ← _maybe_enable_services to_enable result;
    mret (changed || c, result)
  else mret (changed, result).

(** [if to_disable: changed |= _maybe_disable_services(...)] *)
Definition disable_step (to_disable : list string) (changed : bool)
    (result : gmap string pyval) : M World (bool * gmap string pyval) :=
  if nonempty to_disable then
    '(c, result) ← _maybe_disable_services to_disable result;
    mret (changed || c, result)
  else mret (changed, result).

(** [if changed: result["status"] = _get_status(module, pro)] *)
Definition final_status (changed : bool) (result : gmap string pyval)
  : M World (gmap string pyval) :=
  if changed then
    status ← _get_status;
    mret (<["status" := status]> result)
  else mret result.

(** The rest of [main] outside check mode: the actions of the plan,
    the last status read and the exit. *)
Definition execute_plan (attach_needed detach_needed : bool)
    (token : option string) (enabled disabled : list string)
    (to_enable to_disable : list string) (result : gmap string pyval)
  : M World unit :=
  let changed := false in
  '(changed, result, to_enable, to_disable) ←
    attach_or_detach attach_needed detach_needed token enabled disabled
      to_enable to_disable changed result;
  '(changed, result) ← enable_step to_enable changed result;
  '(changed, result) ← disable_step to_disable changed result;
  result ← final_status changed result;
  exit_json (<["changed" := PBool changed]> result).

(** [required_if=[["state", "attached", ["token"]]]]: the check
    [AnsibleModule] makes while it is constructed. *)
Definition required_if_missing (p : params) : bool :=
  bool_decide (p_state p = Some Attached) && bool_decide (p_token p = None).

(** [main()], from the construction of the module object on;
    [check_mode] is [module.check_mode]. *)
Definition main (p : params) (check_mode : bool) : M World unit :=
  let result : gmap string pyval := {[ "changed" := PBool false ]} in
  if required_if_missing p then
    fail_json
      {[ "msg" := PStr "state is attached but all of the following are missing: token" ]}
  else
  let state := p_state p in
  let token := p_token p in
  let enabled := default [] (p_enabled p) in
  let disabled := default [] (p_disabled p) in
  if bool_decide (state = Some Detached) && (nonempty enabled || nonempty disabled)
  then fail_json {[ "msg" := PStr "enabled/disabled cannot be used with state=detached" ]}
  else
  status ← _get_status;
  let result := <["status" := status]> result in
  let attached := _status_attached status in
  let attach_needed := Plan.attach_needed state enabled disabled attached in
  if attach_needed && negb (token_given token)
  then fail_json {[ "msg" := PStr "token is required to attach the system" ]}
  else
  let detach_needed := Plan.detach_needed state attached in
  current_enabled ← lift (_collect_enabled_services status);
  let to_enable := Plan.to_enable enabled current_enabled in
  let to_disable := Plan.to_disable disabled current_enabled in
  if check_mode then
    check_mode_exit attach_needed detach_needed to_enable to_disable result
  else
  execute_plan attach_needed detach_needed token enabled disabled
    to_enable to_disable result.

(** A run of [main] on a machine [w], with no invocation made yet. *)
Definition run (p : params) (check_mode : bool) (w : World)
  : outcome unit * mstate World :=
  main p check_mode (MState w []).
End Pro.

(** ** A scripted machine for the examples *)

(** A machine that answers the successive invocations with the answers
    of a script, whatever the arguments, and with success and no output
    once the script is over. *)
Definition scripted (args : list string) (script : list answer)
  : answer * list answer :=
  match script with
  | a :: script' => (a, script')
  | [] => ((0%Z, "", ""), [])
  end.

Definition dquote : string := String (ascii_of_nat 34) EmptyString.

(** The JSON text of a key with a literal value, in braces. *)
Definition json_field (key value : string) : string :=
  "{" ++ dquote ++ key ++ dquote ++ ": " ++ value ++ "}".

(** A decoder that knows the few texts the examples use and raises
    [ValueError] on every other text. *)
Definition sample_loads (text : string) : option pyval :=
  if String.eqb text (json_field "attached" "true")
  then Some (PDict {[ "attached" := PBool true ]})
  else if String.eqb text (json_field "attached" "false")
  then Some (PDict {[ "attached" := PBool false ]})
  else if String.eqb text "{}" then Some (PDict ∅)
  else if String.eqb text "null" then Some PNone
  else None.

Definition sample_pro : string := "/usr/bin/pro".

Definition sample_run (p : params) (check_mode : bool) (script : list answer)
  : outcome unit * mstate (list answer) :=
  run scripted sample_loads sample_pro p check_mode script.

(** The scenario of the specification: [esm-apps] is enabled, and
    [esm-apps] and [livepatch] are requested. *)
Definition sample_status : pyval :=
  PDict {[ "attached" := PBool true;
           "services" := PList [PDict {[ "name" := PStr "esm-apps";
                                          "status" := PStr "enabled" ]}] ]}.

(** ** Predicates on runs *)

(** An invocation that exited with status zero. *)
Definition succeeded (c : list string * answer) : Prop := c.2.1.1 = 0%Z.

(** The run stopped on its last invocation, which exited non-zero, with
    the failure of [_execute] for that invocation; every earlier
    invocation had succeeded. *)
Definition aborted {A} (o : outcome A) (log : list (list string * answer)) : Prop :=
  ∃ (log0 : list (list string * answer)) args rc out err,
    log = (log0 ++ [(args, (rc, out, err))])%list ∧ Forall succeeded log0 ∧
    rc ≠ 0%Z ∧ o = FailJson (command_failed rc out err args).

(** A computation that, started after successful invocations only, ends
    either with successful invocations only or aborted. *)
Definition fail_fast {World A} (m : M World A) : Prop :=
  ∀ st, Forall succeeded (calls st) →
        Forall succeeded (calls (m st).2) ∨ aborted (m st).1 (calls (m st).2).

(** What a computation can return, and the keyword arguments with which
    it can leave through [exit_json], from any state. *)
Definition returns {World A} (m : M World A) (P : A → Prop) : Prop :=
  ∀ st a st', m st = (Return a, st') → P a.

Definition exits_with {World A} (m : M World A) (Q : gmap string pyval → Prop)
  : Prop :=
  ∀ st kw st', m st = (ExitJson kw, st') → Q kw.

(** The lists of a plan come from one set of enabled services, and the
    result dictionary does not hold them yet. *)
Definition one_snapshot (enabled disabled : list string)
    (s : bool * gmap string pyval * list string * list string) : Prop :=
  let '(_, result, to_enable, to_disable) := s in
  (∃ C, to_enable = Plan.to_enable enabled C
        ∧ to_disable = Plan.to_disable disabled C)
  ∧ result !! "enabled" = None ∧ result !! "disabled" = None.

(** The lists a result dictionary reports share no service. *)
Definition reports_disjoint (kw : gmap string pyval) : Prop :=
  ∀ to_enable to_disable : list string,
    kw !! "enabled" = Some (str_list to_enable) →
    kw !! "disabled" = Some (str_list to_disable) →
    ∀ x, x ∈ to_enable → x ∉ to_disable.

(** ** Shapes of entries and of invocations *)

(** A value [set.add] accepts: anything but a list or a dict. *)
Definition hashable (v : pyval) : Prop :=
  match v with
  | PList _ | PDict _ => False
  | _ => True
  end.

(** A service entry the loop of [_collect_enabled_services] handles
    without an exception: a dict whose name, if any, is hashable. *)
Definition entry_ok (v : pyval) : Prop :=
  ∃ d, v = PDict d ∧ hashable (dict_get d "name").

(** The state of the machine as the module sees it once the actions of
    a plan have been carried out by the tool: the services of
    [to_enable] are enabled, those of [to_disable] are not. *)
Definition applied (C : gset string) (to_enable to_disable : list string)
  : gset string :=
  (C ∪ list_to_set to_enable) ∖ list_to_set to_disable.

(** The command of an invocation: the word after the executable. *)
Definition kind (c : list string * answer) : string := default "" (c.1 !! 1%nat).

(** The commands in the order [main] can issue them. *)
Definition run_order : list string :=
  ["status"; "detach"; "attach"; "status"; "enable"; "disable"; "status"].

(** The argument vectors [main] can pass to [module.run_command] for
    the parameters [p]. *)
Definition allowed (pro : string) (p : params) (args : list string) : Prop :=
  args = [pro; "status"; "--wait"; "--format=json"]
  ∨ (∃ token, p_token p = Some token ∧ token ≠ ""
              ∧ args = [pro; "attach"; "--format=json"; token])
  ∨ (p_state p = Some Detached
     ∧ args = [pro; "detach"; "--assume-yes"; "--format=json"])
  ∨ (∃ services, services ≠ [] ∧ services `sublist_of` default [] (p_enabled p)
                 ∧ args = ([pro; "enable"; "--assume-yes"; "--format=json"]
                           ++ services)%list)
  ∨ (∃ services, services ≠ [] ∧ services `sublist_of` default [] (p_disabled p)
                 ∧ args = ([pro; "disable"; "--assume-yes"; "--format=json"]
                           ++ services)%list).

(** The keyword arguments of a run that left through [exit_json]. *)
Definition exit_kwargs {World} (r : outcome unit * mstate World)
  : gmap string pyval :=
  match r.1 with
  | ExitJson kw => kw
  | _ => ∅
  end.

(** A run on the scripted machine that enables [livepatch] on an
    attached system: status read, enable, status read. *)
Definition sample_enable_run : outcome unit * mstate (list answer) :=
  sample_run (Params None None (Some ["livepatch"]) None) false
    [(0%Z, json_field "attached" "true", ""); (0%Z, "", "");
     (0%Z, json_field "attached" "true", "")].

(** A run on the scripted machine that attaches, enables [livepatch]
    and reads the status a last time. *)
Definition sample_attach_run : outcome unit * mstate (list answer) :=
  sample_run (Params (Some Attached) (Some "C1xyz") (Some ["livepatch"]) None) false
    [(0%Z, json_field "attached" "false", ""); (0%Z, "", "");
     (0%Z, json_field "attached" "true", ""); (0%Z, "", "");
     (0%Z, json_field "attached" "true", "")].

(** * Properties *)

(** ** Enabled-flag normalization *)

Section Normalization.
Implicit Types (service : gmap string pyval) (v : pyval).

Lemma service_enabled_key service v :
  service !! "enabled" = Some v → _service_enabled service = truthy v.
Proof. intros Hv. unfold _service_enabled. by rewrite Hv. Qed.

Lemma service_enabled_status service s :
  service !! "enabled" = None →
  service !! "status" = Some (PStr s) →
  _service_enabled service = bool_decide (lower s ∈ _ENABLED).
Proof.
  intros Hen Hst. unfold _service_enabled, dict_get. by rewrite Hen, Hst.
Qed.

Lemma service_enabled_state service s :
  service !! "enabled" = None →
  (∀ t, service !! "status" ≠ Some (PStr t)) →
  service !! "state" = Some (PStr s) →
  _service_enabled service = bool_decide (lower s ∈ _ENABLED).
Proof.
  intros Hen Hst Hstate. unfold _service_enabled, dict_get.
  rewrite Hen, Hstate. simpl.
  destruct (service !! "status") as [[]|] eqn:E; simpl; try done.
  by destruct (Hst s0).
Qed.

Lemma service_enabled_none service :
  service !! "enabled" = None →
  (∀ t, service !! "status" ≠ Some (PStr t)) →
  (∀ t, service !! "state" ≠ Some (PStr t)) →
  _service_enabled service = false.
Proof.
  intros Hen Hst Hstate. unfold _service_enabled, dict_get. rewrite Hen.
  destruct (service !! "status") as [[]|] eqn:E1; simpl;
    try (by destruct (Hst s));
    destruct (service !! "state") as [[]|] eqn:E2; simpl; try done;
    by destruct (Hstate s).
Qed.
End Normalization.

(** C4, as the specification words it, fails: an entry whose [enabled]
    field is the empty string and whose [status] is ["enabled"] has no
    boolean [enabled] field and an accepted [status], yet the module
    reports it disabled. *)
Lemma normalization_precedence_counterexample :
  let service : gmap string pyval :=
    {[ "enabled" := PStr ""; "status" := PStr "enabled" ]} in
  normalize_by_precedence service = true ∧ _service_enabled service = false.
Proof. split; vm_compute; reflexivity. Qed.

(** C4, amended: when the entry has an [enabled] field, its truth value
    is used, which for a boolean is the boolean itself; otherwise a
    textual [status] decides by membership of its lowercase form in
    {"enabled", "active", "on"}; otherwise a textual [state] decides the
    same way; otherwise the entry is disabled.  In particular a status
    of "Active" and a field [enabled] of [true] give enabled, and an
    entry with none of the three fields gives disabled. *)
Theorem normalization_precedence (service : gmap string pyval) :
  (∀ v, service !! "enabled" = Some v → _service_enabled service = truthy v) ∧
  (∀ b : bool, service !! "enabled" = Some (PBool b) → _service_enabled service = b) ∧
  (∀ s, service !! "enabled" = None →
        service !! "status" = Some (PStr s) →
        (_service_enabled service = true ↔ lower s ∈ ["enabled"; "active"; "on"])) ∧
  (∀ s, service !! "enabled" = None →
        (∀ t, service !! "status" ≠ Some (PStr t)) →
        service !! "state" = Some (PStr s) →
        (_service_enabled service = true ↔ lower s ∈ ["enabled"; "active"; "on"])) ∧
  (service !! "enabled" = None →
   (∀ t, service !! "status" ≠ Some (PStr t)) →
   (∀ t, service !! "state" ≠ Some (PStr t)) →
   _service_enabled service = false) ∧
  (service !! "enabled" = None →
   service !! "status" = Some (PStr "Active") →
   _service_enabled service = true) ∧
  (service !! "enabled" = None →
   service !! "status" = None →
   service !! "state" = None →
   _service_enabled service = false).
Proof.
  split; [apply service_enabled_key|].
  split; [intros b Hb; by rewrite (service_enabled_key _ _ Hb)|].
  split.
  { intros s Hen Hst. rewrite (service_enabled_status _ _ Hen Hst).
    apply bool_decide_eq_true. }
  split.
  { intros s Hen Hst Hstate. rewrite (service_enabled_state _ _ Hen Hst Hstate).
    apply bool_decide_eq_true. }
  split; [apply service_enabled_none|].
  split.
  - intros Hen Hst. by rewrite (service_enabled_status _ _ Hen Hst).
  - intros Hen Hst Hstate. apply service_enabled_none; [done| |]; congruence.
Qed.

Lemma normalization_precedence_witness :
  _service_enabled {[ "enabled" := PBool true ]} = true ∧
  _service_enabled {[ "name" := PStr "esm-apps"; "status" := PStr "Active" ]} = true ∧
  _service_enabled {[ "name" := PStr "esm-apps" ]} = false.
Proof.
  split; [|split].
  - apply (proj1 (proj2 (normalization_precedence {[ "enabled" := PBool true ]})) true).
    reflexivity.
  - apply (proj1 (proj2 (proj2 (proj2 (proj2 (proj2
             (normalization_precedence
                {[ "name" := PStr "esm-apps"; "status" := PStr "Active" ]})))))));
      reflexivity.
  - apply (proj2 (proj2 (proj2 (proj2 (proj2 (proj2
             (normalization_precedence {[ "name" := PStr "esm-apps" ]})))))));
      reflexivity.
Defined.

(** C10: when the entry has an [enabled] key, whatever the type of its
    value, the result is the truth value of that value and no other
    field of the entry has any influence: the strings "disabled" and
    "no" give enabled, the integer [0] and the empty string give
    disabled. *)
Theorem enabled_key_truthiness (service : gmap string pyval) (v : pyval) :
  service !! "enabled" = Some v →
  _service_enabled service = truthy v ∧
  (∀ service' : gmap string pyval,
     service' !! "enabled" = Some v →
     _service_enabled service' = _service_enabled service) ∧
  (∀ status state : pyval,
     _service_enabled (<["status" := status]> (<["state" := state]> service))
     = _service_enabled service) ∧
  (v = PStr "disabled" ∨ v = PStr "no" → _service_enabled service = true) ∧
  (v = PInt 0 ∨ v = PStr "" → _service_enabled service = false).
Proof.
  intros Hv. rewrite (service_enabled_key _ _ Hv). repeat split.
  - intros service' Hv'. apply service_enabled_key, Hv'.
  - intros status state. apply service_enabled_key.
    by rewrite !lookup_insert_ne.
  - by intros [-> | ->].
  - by intros [-> | ->].
Qed.

Lemma enabled_key_truthiness_witness :
  _service_enabled {[ "enabled" := PStr "no"; "status" := PStr "disabled" ]} = true.
Proof.
  apply (enabled_key_truthiness
           {[ "enabled" := PStr "no"; "status" := PStr "disabled" ]} (PStr "no"));
    [reflexivity | right; reflexivity].
Defined.

(** ** The plan *)

Section PlanProperties.
Implicit Types (C : gset string) (E D enabled disabled : list string).
Implicit Types (state : option target) (attached : bool).

Lemma nonempty_true {A} (l : list A) : nonempty l = true ↔ l ≠ [].
Proof. destruct l; simpl; split; congruence. Qed.

Lemma attach_needed_true state enabled disabled attached :
  Plan.attach_needed state enabled disabled attached = true
  ↔ (state = Some Attached ∨ enabled ≠ [] ∨ disabled ≠ []) ∧ attached = false.
Proof.
  unfold Plan.attach_needed.
  rewrite andb_true_iff, !orb_true_iff, bool_decide_eq_true, !nonempty_true,
    negb_true_iff. tauto.
Qed.

Lemma elem_of_to_enable E C x : x ∈ Plan.to_enable E C ↔ x ∈ E ∧ x ∉ C.
Proof. unfold Plan.to_enable. rewrite list_elem_of_filter. tauto. Qed.

Lemma elem_of_to_disable D C x : x ∈ Plan.to_disable D C ↔ x ∈ D ∧ x ∈ C.
Proof. unfold Plan.to_disable. rewrite list_elem_of_filter. tauto. Qed.

Lemma to_enable_to_disable_disjoint E D C x :
  x ∈ Plan.to_enable E C → x ∉ Plan.to_disable D C.
Proof. rewrite elem_of_to_enable, elem_of_to_disable. tauto. Qed.

(** What one iteration of the loop adds to the set. *)
Lemma collect_step_spec C C' svc n :
  collect_step C svc = inr C' →
  n ∈ C' ↔
    n ∈ C ∨ ∃ d, svc = PDict d ∧ dict_get d "name" = PStr n ∧ n ≠ ""
                 ∧ _service_enabled d = true.
Proof.
  destruct svc as [| | | | |l|d]; simpl; try discriminate.
  destruct (truthy (dict_get d "name")) eqn:Hname; simpl.
  2:{ intros [= <-]. split; [tauto|].
      intros [?|(d' & [= <-] & Hn & Hne & _)]; [done|].
      rewrite Hn in Hname. simpl in Hname.
      by destruct (String.eqb_spec n ""). }
  destruct (_service_enabled d) eqn:Hen.
  2:{ intros [= <-]. split; [tauto|].
      intros [?|(d' & [= <-] & _ & _ & Hen')]; [done|congruence]. }
  destruct (dict_get d "name") as [| | | |s| |] eqn:Hn; simpl;
    try discriminate; intros [= <-];
    try (split; [tauto|]; intros [?|(d' & [= <-] & Hn' & _)]; [done|congruence]).
  rewrite elem_of_union, elem_of_singleton. split.
  - intros [->|?]; [|tauto]. right. exists d. repeat split; try done.
    simpl in Hname. destruct (String.eqb_spec s ""); [done|done].
  - intros [?|(d' & [= <-] & Hn' & _)]; [tauto|]. left. congruence.
Qed.

Lemma collect_loop_spec entries : ∀ C C' n,
  collect_loop C entries = inr C' →
  n ∈ C' ↔
    n ∈ C ∨ ∃ d, PDict d ∈ entries ∧ dict_get d "name" = PStr n ∧ n ≠ ""
                 ∧ _service_enabled d = true.
Proof.
  induction entries as [|svc rest IH]; intros C C' n; simpl.
  - intros [= <-]. split; [tauto|]. intros [?|(d & Hd & _)]; [done|].
    by apply not_elem_of_nil in Hd.
  - destruct (collect_step C svc) as [e|C1] eqn:Hstep; [discriminate|].
    intros Hloop. rewrite (IH _ _ n Hloop), (collect_step_spec _ _ _ n Hstep).
    split.
    + intros [[?|(d & -> & ?)]|(d & Hd & ?)]; [tauto| |].
      * right. exists d. split; [apply list_elem_of_here|done].
      * right. exists d. split; [by apply list_elem_of_further|done].
    + intros [?|(d & Hd & ?)]; [tauto|].
      apply elem_of_cons in Hd as [<-|Hd].
      * left. right. by exists d.
      * right. by exists d.
Qed.

(** The set [_collect_enabled_services] returns holds exactly the
    non-empty names of the entries that normalize to enabled. *)
Lemma collect_enabled_services_spec status C :
  _collect_enabled_services status = inr C →
  ∃ entries, py_iter (service_entries status) = inr entries ∧
    ∀ n, n ∈ C ↔ ∃ d, PDict d ∈ entries ∧ dict_get d "name" = PStr n
                      ∧ n ≠ "" ∧ _service_enabled d = true.
Proof.
  unfold _collect_enabled_services.
  destruct (py_iter (service_entries status)) as [e|entries]; [discriminate|].
  intros Hloop. exists entries. split; [done|]. intros n.
  rewrite (collect_loop_spec _ _ _ n Hloop).
  split; [intros [Hn|Hd]; [by apply not_elem_of_empty in Hn|done] | by right].
Qed.
End PlanProperties.

(** C1: when the enabled-service set of the snapshot is [C], that is
    the set of the non-empty names of its entries that normalize to
    enabled, the plan for the desired lists [E] and [D] has for
    [to_enable] the elements of [E] that are not in [C], in the order of
    [E], and for [to_disable] the elements of [D] that are in [C], in
    the order of [D]. *)
Theorem diff_correctness (status : pyval) (C : gset string) (E D : list string) :
  _collect_enabled_services status = inr C →
  (∃ entries, py_iter (service_entries status) = inr entries ∧
     ∀ n, n ∈ C ↔ ∃ d, PDict d ∈ entries ∧ dict_get d "name" = PStr n
                       ∧ n ≠ "" ∧ _service_enabled d = true) ∧
  Plan.to_enable E C = filter (λ svc, svc ∉ C) E ∧
  Plan.to_disable D C = filter (λ svc, svc ∈ C) D ∧
  Plan.to_enable E C `sublist_of` E ∧
  Plan.to_disable D C `sublist_of` D ∧
  (∀ x, x ∈ Plan.to_enable E C ↔ x ∈ E ∧ x ∉ C) ∧
  (∀ x, x ∈ Plan.to_disable D C ↔ x ∈ D ∧ x ∈ C).
Proof.
  intros HC. split; [by apply collect_enabled_services_spec|].
  split; [done|]. split; [done|].
  split; [apply sublist_filter|]. split; [apply sublist_filter|].
  split; intros x; [apply elem_of_to_enable | apply elem_of_to_disable].
Qed.

Lemma diff_correctness_witness :
  Plan.to_enable ["esm-apps"; "livepatch"] {[ "esm-apps" ]} = ["livepatch"] ∧
  Plan.to_disable ["livepatch"; "esm-apps"] {[ "esm-apps" ]} = ["esm-apps"].
Proof.
  destruct (diff_correctness sample_status {[ "esm-apps" ]}
              ["esm-apps"; "livepatch"] ["livepatch"; "esm-apps"])
    as (_ & -> & -> & _).
  - vm_compute. reflexivity.
  - split; vm_compute; reflexivity.
Defined.

(** C5: [attach_needed] holds exactly when the state asked for is
    [attached] or one of the two lists is not empty, and the snapshot is
    not attached; so it holds when a list is not empty and the system is
    not attached, even with no state asked for. *)
Theorem attach_inference (p : params) (status : pyval) :
  let enabled := default [] (p_enabled p) in
  let disabled := default [] (p_disabled p) in
  (Plan.attach_needed (p_state p) enabled disabled (_status_attached status) = true
   ↔ (p_state p = Some Attached ∨ enabled ≠ [] ∨ disabled ≠ [])
     ∧ _status_attached status = false) ∧
  (p_state p = None → enabled ≠ [] ∨ disabled ≠ [] →
   _status_attached status = false →
   Plan.attach_needed (p_state p) enabled disabled (_status_attached status) = true).
Proof.
  intros enabled disabled. split; [apply attach_needed_true|].
  intros _ Hlists Hatt. apply attach_needed_true. tauto.
Qed.

Lemma attach_inference_witness :
  Plan.attach_needed None ["livepatch"] [] (_status_attached (PDict ∅)) = true.
Proof.
  apply (attach_inference (Params None None (Some ["livepatch"]) None) (PDict ∅));
    [reflexivity | left; discriminate | reflexivity].
Defined.

(** C6: no plan has both [attach_needed] and [detach_needed]. *)
Theorem attach_detach_exclusive (p : params) (status : pyval) :
  let enabled := default [] (p_enabled p) in
  let disabled := default [] (p_disabled p) in
  let attached := _status_attached status in
  Plan.attach_needed (p_state p) enabled disabled attached
  && Plan.detach_needed (p_state p) attached = false.
Proof.
  intros enabled disabled attached.
  unfold Plan.attach_needed, Plan.detach_needed.
  destruct attached.
  - apply andb_false_intro1, andb_false_r.
  - apply andb_false_intro2, andb_false_r.
Qed.

(** ** Runs of the module *)

Create HintDb fail_fast.

Section RunProperties.
Context {World : Type}.
Variable run_command : list string → World → answer * World.
Variable json_loads : string → option pyval.
Variable pro : string.

#[local] Abbreviation execute := (_execute run_command json_loads).
#[local] Abbreviation get_status := (_get_status run_command json_loads pro).
#[local] Abbreviation pro_main := (main run_command json_loads pro).
#[local] Abbreviation pro_run := (run run_command json_loads pro).
#[local] Abbreviation parse := (parsed json_loads).

Lemma fail_fast_ret {A} (a : A) : fail_fast (mret a : M World A).
Proof. intros st Hst. by left. Qed.

Lemma fail_fast_exit_json {A} kw : fail_fast (exit_json kw : M World A).
Proof. intros st Hst. by left. Qed.

Lemma fail_fast_fail_json {A} kw : fail_fast (fail_json kw : M World A).
Proof. intros st Hst. by left. Qed.

Lemma fail_fast_lift {A} (r : pyexc + A) : fail_fast (lift r : M World A).
Proof. destruct r; intros st Hst; by left. Qed.

Lemma fail_fast_bind {A B} (m : M World A) (k : A → M World B) :
  fail_fast m → (∀ a, fail_fast (k a)) → fail_fast (m ≫= k).
Proof.
  intros Hm Hk st Hst. specialize (Hm st Hst).
  unfold mbind, M_bind. destruct (m st) as [[a|kw|kw|e] st'] eqn:Hrun; simpl in *.
  - destruct Hm as [Hclean|(? & ? & ? & ? & ? & _ & _ & _ & [=])]. by apply Hk.
  - destruct Hm as [Hclean|(? & ? & ? & ? & ? & _ & _ & _ & [=])]. by left.
  - destruct Hm as [Hclean|(log0 & args & rc & out & err & ? & ? & ? & [= ->])];
      [by left|]. right. by exists log0, args, rc, out, err.
  - destruct Hm as [Hclean|(? & ? & ? & ? & ? & _ & _ & _ & [=])]. by left.
Qed.

Lemma execute_run args st :
  execute args st =
    let '((rc, out, err), w') := run_command args (world st) in
    let st' := MState w' (calls st ++ [(args, (rc, out, err))]) in
    if (rc =? 0)%Z then (Return (parse out, out, err), st')
    else (FailJson (command_failed rc out err args), st').
Proof.
  unfold _execute, module_run_command, mbind, M_bind.
  destruct (run_command args (world st)) as [[[rc out] err] w'].
  by destruct (rc =? 0)%Z.
Qed.

Lemma fail_fast_execute args : fail_fast (execute args).
Proof.
  intros st Hst. rewrite execute_run.
  destruct (run_command args (world st)) as [[[rc out] err] w'].
  destruct (Z.eqb_spec rc 0) as [->|Hrc]; simpl.
  - left. apply Forall_app. split; [done|]. by apply Forall_singleton.
  - right. by exists (calls st), args, rc, out, err.
Qed.

Lemma bind_run {A B} (m : M World A) (k : A → M World B) st :
  (m ≫= k) st =
    match m st with
    | (Return a, st') => k a st'
    | (ExitJson kw, st') => (ExitJson kw, st')
    | (FailJson kw, st') => (FailJson kw, st')
    | (Raise e, st') => (Raise e, st')
    end.
Proof. reflexivity. Qed.

Lemma get_status_run st :
  get_status st =
    let '((rc, out, err), w') := run_command (status_args pro) (world st) in
    let st' := MState w' (calls st ++ [(status_args pro, (rc, out, err))]) in
    if (rc =? 0)%Z then (Return (parse out), st')
    else (FailJson (command_failed rc out err (status_args pro)), st').
Proof.
  unfold _get_status. rewrite bind_run, execute_run. simpl.
  destruct (run_command _ (world st)) as [[[rc out] err] w'].
  by destruct (rc =? 0)%Z.
Qed.

Ltac fail_fast_step :=
  match goal with
  | |- fail_fast (mret _) => apply fail_fast_ret
  | |- fail_fast (exit_json _) => apply fail_fast_exit_json
  | |- fail_fast (fail_json _) => apply fail_fast_fail_json
  | |- fail_fast (lift _) => apply fail_fast_lift
  | |- fail_fast (_execute _ _ _) => apply fail_fast_execute
  | |- fail_fast (_ ≫= _) => apply fail_fast_bind
  | |- fail_fast (if ?b then _ else _) => destruct b
  | |- fail_fast (let '(_, _) := ?x in _) => destruct x
  | |- ∀ _, _ => intro
  end.
Ltac solve_fail_fast := repeat fail_fast_step; auto with fail_fast.

Lemma fail_fast_get_status : fail_fast get_status.
Proof. unfold _get_status. solve_fail_fast. Qed.

Lemma fail_fast_maybe_attach token result :
  fail_fast (_maybe_attach run_command json_loads pro token result).
Proof. unfold _maybe_attach. solve_fail_fast. Qed.

Lemma fail_fast_maybe_detach result :
  fail_fast (_maybe_detach run_command json_loads pro result).
Proof. unfold _maybe_detach. solve_fail_fast. Qed.

Lemma fail_fast_maybe_enable_services to_enable result :
  fail_fast (_maybe_enable_services run_command json_loads pro to_enable result).
Proof. unfold _maybe_enable_services. solve_fail_fast. Qed.

Lemma fail_fast_maybe_disable_services to_disable result :
  fail_fast (_maybe_disable_services run_command json_loads pro to_disable result).
Proof. unfold _maybe_disable_services. solve_fail_fast. Qed.

Hint Resolve fail_fast_get_status fail_fast_maybe_attach fail_fast_maybe_detach
  fail_fast_maybe_enable_services fail_fast_maybe_disable_services : fail_fast.

Lemma fail_fast_main p check_mode : fail_fast (pro_main p check_mode).
Proof.
  unfold main, check_mode_exit, execute_plan, attach_or_detach, enable_step,
    disable_step, final_status.
  solve_fail_fast.
Qed.

(** Every invocation of a run of [main] that exits non-zero is the
    last one, and the run ends in the failure of [_execute] for it. *)
Lemma run_aborts_on_failure p check_mode w l1 args rc out err l2 :
  calls (pro_run p check_mode w).2 = (l1 ++ (args, (rc, out, err)) :: l2)%list →
  rc ≠ 0%Z →
  l2 = [] ∧ Forall succeeded l1 ∧
  (pro_run p check_mode w).1 = FailJson (command_failed rc out err args).
Proof.
  intros Hlog Hrc.
  destruct (fail_fast_main p check_mode (MState w [])) as [Hclean|Hab];
    [by apply Forall_nil| |]; fold (pro_run p check_mode w) in *.
  - rewrite Hlog in Hclean. apply Forall_app in Hclean as [_ Hclean].
    apply Forall_cons in Hclean as [Hc _]. by destruct Hrc.
  - destruct Hab as (log0 & args' & rc' & out' & err' & Hlog' & Hlog0 & _ & Ho).
    rewrite Hlog in Hlog'.
    destruct l2 as [|c l2 _] using rev_ind.
    + apply app_inj_tail in Hlog' as [<- [= <- <- <- <-]]. by rewrite Ho.
    + change (l1 ++ (args, (rc, out, err)) :: l2 ++ [c])%list
        with (l1 ++ ((args, (rc, out, err)) :: l2) ++ [c])%list in Hlog'.
      rewrite app_assoc in Hlog'. apply app_inj_tail in Hlog' as [<- _].
      apply Forall_app in Hlog0 as [_ Hlog0].
      apply Forall_cons in Hlog0 as [Hc _]. by destruct Hrc.
Qed.

(** The part of [main] that the check mode and the normal mode share:
    argument checks, status read, plan. *)
Lemma main_prelude p check_mode st :
  let enabled := default [] (p_enabled p) in
  let disabled := default [] (p_disabled p) in
  pro_main p check_mode st =
    if required_if_missing p then
      (FailJson {[ "msg" := PStr "state is attached but all of the following are missing: token" ]}, st)
    else if bool_decide (p_state p = Some Detached)
            && (nonempty enabled || nonempty disabled) then
      (FailJson {[ "msg" := PStr "enabled/disabled cannot be used with state=detached" ]}, st)
    else
      let '((rc, out, err), w') := run_command (status_args pro) (world st) in
      let st' := MState w' (calls st ++ [(status_args pro, (rc, out, err))]) in
      if (rc =? 0)%Z then
        let status := parse out in
        let result : gmap string pyval :=
          <["status" := status]> {[ "changed" := PBool false ]} in
        let attached := _status_attached status in
        let attach_needed := Plan.attach_needed (p_state p) enabled disabled attached in
        let detach_needed := Plan.detach_needed (p_state p) attached in
        if attach_needed && negb (token_given (p_token p)) then
          (FailJson {[ "msg" := PStr "token is required to attach the system" ]}, st')
        else
          match _collect_enabled_services status with
          | inl e => (Raise e, st')
          | inr current_enabled =>
              let to_enable := Plan.to_enable enabled current_enabled in
              let to_disable := Plan.to_disable disabled current_enabled in
              if check_mode then
                check_mode_exit attach_needed detach_needed to_enable to_disable
                  result st'
              else
                execute_plan run_command json_loads pro attach_needed
                  detach_needed (p_token p) enabled disabled to_enable to_disable
                  result st'
          end
      else (FailJson (command_failed rc out err (status_args pro)), st').
Proof.
  intros enabled disabled. unfold main.
  destruct (required_if_missing p); [done|].
  fold enabled disabled.
  destruct (bool_decide (p_state p = Some Detached)
            && (nonempty enabled || nonempty disabled)); [done|].
  rewrite bind_run, get_status_run.
  destruct (run_command (status_args pro) (world st)) as [[[rc out] err] w'].
  destruct (rc =? 0)%Z; [|done]. cbv beta iota zeta.
  destruct (Plan.attach_needed _ _ _ _ && negb (token_given (p_token p))); [done|].
  rewrite bind_run.
  destruct (_collect_enabled_services (parse out)); [reflexivity|].
  destruct check_mode; reflexivity.
Qed.

(** The fields of the check-mode result. *)
Lemma check_mode_result_lookup an dn (te td : list string) (status : pyval) :
  let kw := check_mode_result an dn te td
              (<["status" := status]> {[ "changed" := PBool false ]}) in
  kw !! "changed" = Some (PBool (an || dn || nonempty te || nonempty td)) ∧
  kw !! "status" = Some status ∧
  kw !! "enabled" = (if nonempty te then Some (str_list te) else None) ∧
  kw !! "disabled" = (if nonempty td then Some (str_list td) else None) ∧
  kw !! "attach_result" = None ∧ kw !! "detach_result" = None ∧
  kw !! "enable_result" = None ∧ kw !! "disable_result" = None.
Proof.
  unfold check_mode_result.
  destruct (nonempty te), (nonempty td); cbv zeta;
    repeat split; by simplify_map_eq.
Qed.

(** C2: in check mode the only external invocation a run can make is
    the initial status read; when the argument checks pass, the status
    is read and interpreted, the run exits with a result whose
    [changed] is true exactly when [attach_needed], [detach_needed],
    [to_enable] or [to_disable] is set or non-empty, which holds the
    predicted lists [to_enable] and [to_disable] when they are not
    empty, and which has none of the four [*_result] fields. *)
Theorem check_mode_dry_run (p : params) (w : World) :
  let enabled := default [] (p_enabled p) in
  let disabled := default [] (p_disabled p) in
  (calls (pro_run p true w).2 = []
   ∨ calls (pro_run p true w).2
     = [(status_args pro, (run_command (status_args pro) w).1)]) ∧
  (∀ kw, (pro_run p true w).1 = ExitJson kw →
     kw !! "attach_result" = None ∧ kw !! "detach_result" = None ∧
     kw !! "enable_result" = None ∧ kw !! "disable_result" = None) ∧
  (∀ out err w' C,
     required_if_missing p = false →
     bool_decide (p_state p = Some Detached)
     && (nonempty enabled || nonempty disabled) = false →
     run_command (status_args pro) w = ((0%Z, out, err), w') →
     let status := parse out in
     let attach_needed :=
       Plan.attach_needed (p_state p) enabled disabled (_status_attached status) in
     let detach_needed := Plan.detach_needed (p_state p) (_status_attached status) in
     attach_needed && negb (token_given (p_token p)) = false →
     _collect_enabled_services status = inr C →
     let to_enable := Plan.to_enable enabled C in
     let to_disable := Plan.to_disable disabled C in
     ∃ kw,
       pro_run p true w
       = (ExitJson kw, MState w' [(status_args pro, (0%Z, out, err))]) ∧
       (kw !! "changed" = Some (PBool true)
        ↔ attach_needed = true ∨ detach_needed = true
          ∨ to_enable ≠ [] ∨ to_disable ≠ []) ∧
       (kw !! "changed" = Some (PBool false)
        ↔ ¬ (attach_needed = true ∨ detach_needed = true
             ∨ to_enable ≠ [] ∨ to_disable ≠ [])) ∧
       kw !! "status" = Some status ∧
       kw !! "enabled"
       = (if nonempty to_enable then Some (str_list to_enable) else None) ∧
       kw !! "disabled"
       = (if nonempty to_disable then Some (str_list to_disable) else None) ∧
       kw !! "attach_result" = None ∧ kw !! "detach_result" = None ∧
       kw !! "enable_result" = None ∧ kw !! "disable_result" = None).
Proof.
  intros enabled disabled. unfold run. rewrite main_prelude.
  fold enabled disabled. cbv zeta. simpl world. simpl calls.
  split; [|split].
  - destruct (required_if_missing p); [by left|].
    destruct (_ && _); [by left|].
    destruct (run_command (status_args pro) w) as [[[rc out] err] w'].
    right. destruct (rc =? 0)%Z; [|done].
    destruct (_ && _); [done|].
    by destruct (_collect_enabled_services (parse out)).
  - intros kw.
    destruct (required_if_missing p); [done|].
    destruct (_ && _); [done|].
    destruct (run_command (status_args pro) w) as [[[rc out] err] w'].
    destruct (rc =? 0)%Z; [|done].
    destruct (_ && _); [done|].
    destruct (_collect_enabled_services (parse out)) as [e|C]; [done|].
    unfold check_mode_exit, exit_json. intros [= <-].
    apply check_mode_result_lookup.
  - intros out err w' C -> -> -> Htoken HC. rewrite Z.eqb_refl, Htoken, HC.
    set (status := parse out).
    set (an := Plan.attach_needed _ _ _ _). set (dn := Plan.detach_needed _ _).
    set (te := Plan.to_enable _ _). set (td := Plan.to_disable _ _).
    exists (check_mode_result an dn te td
              (<["status" := status]> {[ "changed" := PBool false ]})).
    split; [done|].
    destruct (check_mode_result_lookup an dn te td status)
      as (Hch & Hst & Hen & Hdis & Hres).
    rewrite Hch. split; [|split; [|by auto]].
    + rewrite <- !nonempty_true. clearbody an dn.
      destruct an, dn, (nonempty te), (nonempty td); simpl; intuition congruence.
    + rewrite <- !nonempty_true. clearbody an dn.
      destruct an, dn, (nonempty te), (nonempty td); simpl; intuition congruence.
Qed.

(** C8: after a successful invocation, an empty stdout gives [None]
    as parsed result, and a stdout that is not empty and that
    [json.loads] rejects gives the dictionary holding the text under
    [raw]; in both cases [_execute] returns normally, and a run whose
    status read answers that way, with nothing asked for, ends through
    [exit_json] with that parsed result as its status. *)
Theorem execute_output_parsing (args : list string) (st : mstate World)
    (out err : string) (w' : World) :
  run_command args (world st) = ((0%Z, out, err), w') →
  let st' := MState w' (calls st ++ [(args, (0%Z, out, err))]) in
  (out = "" → execute args st = (Return (PNone, out, err), st')) ∧
  (out ≠ "" → json_loads out = None →
   execute args st = (Return (PDict {[ "raw" := PStr out ]}, out, err), st')) ∧
  (args = status_args pro → out = "" ∨ json_loads out = None →
   ∀ check_mode, ∃ kw,
     pro_main (Params None None None None) check_mode st = (ExitJson kw, st') ∧
     kw !! "status" = Some (parse out) ∧ kw !! "changed" = Some (PBool false)).
Proof.
  intros Hrun st'. split; [|split].
  - intros ->. by rewrite execute_run, Hrun.
  - intros Hout Hloads. rewrite execute_run, Hrun. simpl. unfold parsed.
    rewrite Hloads. by destruct (String.eqb_spec out "").
  - intros -> Hout check_mode. rewrite main_prelude, Hrun. simpl.
    assert (_status_attached (parse out) = false
            ∧ _collect_enabled_services (parse out) = inr ∅) as [Hatt Hcol].
    { unfold parsed. destruct Hout as [-> | ->]; [done|].
      by destruct (String.eqb out ""). }
    rewrite Hatt, Hcol.
    destruct check_mode.
    + eexists. split; [reflexivity|]. unfold check_mode_result. simpl.
      by simplify_map_eq.
    + eexists. split; [reflexivity|]. by simplify_map_eq.
Qed.

(** C3, amended: when an attach is implied by the desired state
    ([state=attached], or a non-empty enable or disable list, while the
    status read succeeds and shows the system not attached) and no
    token is supplied, the run fails with a validation error.  The two
    argument checks ([state=attached] given with no token at all,
    [state=detached] given with a list) fail before any external
    call; otherwise the failure is "token is required to attach the
    system" and exactly one external call precedes it, the initial
    status read. *)
Theorem token_required (p : params) (check_mode : bool) (w : World)
    (out err : string) (w' : World) :
  let enabled := default [] (p_enabled p) in
  let disabled := default [] (p_disabled p) in
  p_state p = Some Attached ∨ enabled ≠ [] ∨ disabled ≠ [] →
  token_given (p_token p) = false →
  run_command (status_args pro) w = ((0%Z, out, err), w') →
  _status_attached (parse out) = false →
  pro_run p check_mode w =
    if required_if_missing p then
      (FailJson {[ "msg" := PStr "state is attached but all of the following are missing: token" ]},
       MState w [])
    else if bool_decide (p_state p = Some Detached)
            && (nonempty enabled || nonempty disabled) then
      (FailJson {[ "msg" := PStr "enabled/disabled cannot be used with state=detached" ]},
       MState w [])
    else
      (FailJson {[ "msg" := PStr "token is required to attach the system" ]},
       MState w' [(status_args pro, (0%Z, out, err))]).
Proof.
  intros enabled disabled Himplied Htoken Hrun Hattached.
  unfold run. rewrite main_prelude. fold enabled disabled.
  destruct (required_if_missing p); [done|].
  destruct (_ && _); [done|].
  simpl world. simpl calls. rewrite Hrun, Z.eqb_refl. cbv zeta.
  assert (Plan.attach_needed (p_state p) enabled disabled
            (_status_attached (parse out)) = true) as ->
    by by apply attach_needed_true.
  by rewrite Htoken.
Qed.

(** C7, amended: an external invocation that exits non-zero is the
    last one of the run, and the run ends in a failure that carries
    its exit code, its stdout, its stderr and the argument vector it
    was given, which starts with the resolved path of the executable:
    for a failing enable of "livepatch" that vector is the path
    followed by "enable", "--assume-yes", "--format=json" and
    "livepatch". *)
Theorem nonzero_exit_aborts (p : params) (check_mode : bool) (w : World) :
  (∀ l1 args rc out err l2,
     calls (pro_run p check_mode w).2 = (l1 ++ (args, (rc, out, err)) :: l2)%list →
     rc ≠ 0%Z →
     l2 = [] ∧
     ∃ kw, (pro_run p check_mode w).1 = FailJson kw ∧
           kw !! "rc" = Some (PInt rc) ∧ kw !! "stdout" = Some (PStr out) ∧
           kw !! "stderr" = Some (PStr err) ∧ kw !! "cmd" = Some (str_list args)) ∧
  (∀ result st rc out err w',
     run_command [pro; "enable"; "--assume-yes"; "--format=json"; "livepatch"]
       (world st) = ((rc, out, err), w') →
     rc ≠ 0%Z →
     ∃ kw st',
       _maybe_enable_services run_command json_loads pro ["livepatch"] result st
       = (FailJson kw, st') ∧
       kw !! "rc" = Some (PInt rc) ∧ kw !! "stdout" = Some (PStr out) ∧
       kw !! "stderr" = Some (PStr err) ∧
       kw !! "cmd" = Some (str_list [pro; "enable"; "--assume-yes";
                                     "--format=json"; "livepatch"]) ∧
       calls st' = (calls st ++ [([pro; "enable"; "--assume-yes";
                                   "--format=json"; "livepatch"],
                                  (rc, out, err))])%list).
Proof.
  split.
  - intros l1 args rc out err l2 Hlog Hrc.
    destruct (run_aborts_on_failure _ _ _ _ _ _ _ _ _ Hlog Hrc) as (Hl2 & _ & Ho).
    split; [done|]. exists (command_failed rc out err args).
    split; [done|]. unfold command_failed. by simplify_map_eq.
  - intros result st rc out err w' Hrun Hrc.
    unfold _maybe_enable_services. rewrite bind_run, execute_run.
    simpl app. rewrite Hrun. cbv zeta.
    destruct (Z.eqb_spec rc 0) as [?|_]; [done|].
    eexists _, _. split; [done|]. unfold command_failed. by simplify_map_eq.
Qed.

Lemma returns_ret {A} (a : A) (P : A → Prop) :
  P a → returns (mret a : M World A) P.
Proof. intros HP st a' st' [= <- _]. exact HP. Qed.

Lemma returns_bind {A B} (m : M World A) (k : A → M World B)
    (P : A → Prop) (Q : B → Prop) :
  returns m P → (∀ a, P a → returns (k a) Q) → returns (m ≫= k) Q.
Proof.
  intros Hm Hk st b st'. rewrite bind_run.
  destruct (m st) as [[a|kw|kw|e] st1] eqn:Hrun; try discriminate.
  apply (Hk a (Hm _ _ _ Hrun)).
Qed.

Lemma returns_any {A} (m : M World A) : returns m (λ _, True).
Proof. by intros st a st' _. Qed.

Lemma exits_with_bind {A B} (m : M World A) (k : A → M World B)
    (P : A → Prop) (Q : gmap string pyval → Prop) :
  exits_with m Q → returns m P → (∀ a, P a → exits_with (k a) Q) →
  exits_with (m ≫= k) Q.
Proof.
  intros Hexit Hm Hk st kw st'. rewrite bind_run.
  destruct (m st) as [[a|kw1|kw1|e] st1] eqn:Hrun; try discriminate.
  - apply (Hk a (Hm _ _ _ Hrun)).
  - intros [= <- <-]. apply (Hexit _ _ _ Hrun).
Qed.

Lemma exits_with_ret {A} (a : A) Q : exits_with (mret a : M World A) Q.
Proof. intros st kw st'. discriminate. Qed.

Lemma exits_with_lift {A} (r : pyexc + A) Q : exits_with (lift r : M World A) Q.
Proof. destruct r; intros st kw st'; discriminate. Qed.

Lemma exits_with_execute args Q : exits_with (execute args) Q.
Proof.
  intros st kw st'. rewrite execute_run.
  destruct (run_command args (world st)) as [[[rc out] err] w'].
  destruct (rc =? 0)%Z; discriminate.
Qed.

Lemma exits_with_exit_json {A} kw (Q : gmap string pyval → Prop) :
  Q kw → exits_with (exit_json kw : M World A) Q.
Proof. intros HQ st kw' st' [= <- _]. exact HQ. Qed.

(** An action that calls [_execute] once and stores what it parsed
    under a key of the result dictionary. *)
Lemma action_returns args (f : pyval → gmap string pyval) (P : gmap string pyval → Prop) :
  (∀ v, P (f v)) →
  returns ('(v, _, _) ← execute args; mret (true, f v))
          (λ r : bool * gmap string pyval, P r.2).
Proof.
  intros HP. apply (returns_bind _ _ (λ _, True)); [apply returns_any|].
  intros [[v out] err] _. apply returns_ret, HP.
Qed.

Lemma exits_with_bind_any {A B} (m : M World A) (k : A → M World B) Q :
  exits_with m Q → (∀ a, exits_with (k a) Q) → exits_with (m ≫= k) Q.
Proof.
  intros Hm Hk. apply (exits_with_bind _ _ (λ _, True)); [done|apply returns_any|].
  intros a _. apply Hk.
Qed.

Ltac never_exits_step :=
  match goal with
  | |- exits_with (mret _) _ => apply exits_with_ret
  | |- exits_with (lift _) _ => apply exits_with_lift
  | |- exits_with (_execute _ _ _) _ => apply exits_with_execute
  | |- exits_with (_ ≫= _) _ => apply exits_with_bind_any
  | |- exits_with (if ?b then _ else _) _ => destruct b
  | |- exits_with (let '(_, _) := ?x in _) _ => destruct x
  | |- ∀ _, _ => intro
  end.
Ltac never_exits := repeat never_exits_step.

Lemma attach_or_detach_returns an dn token enabled disabled te td changed result :
  one_snapshot enabled disabled (changed, result, te, td) →
  returns (attach_or_detach run_command json_loads pro an dn token enabled disabled
             te td changed result)
          (one_snapshot enabled disabled).
Proof.
  intros (HC & Hen & Hdis). unfold attach_or_detach.
  destruct dn; [|destruct (an && token_given token)].
  - eapply returns_bind.
    + apply (action_returns _ (λ v, <["detach_result" := v]> result)
               (λ r, r !! "enabled" = None ∧ r !! "disabled" = None)).
      intros v. by rewrite !lookup_insert_ne.
    + intros [c r] [Hen' Hdis']. by apply returns_ret.
  - eapply returns_bind.
    + apply (action_returns _ (λ v, <["attach_result" := v]> result)
               (λ r, r !! "enabled" = None ∧ r !! "disabled" = None)).
      intros v. by rewrite !lookup_insert_ne.
    + intros [c r] [Hen' Hdis'].
      apply (returns_bind _ _ (λ _, True)); [apply returns_any|].
      intros status _.
      apply (returns_bind _ _ (λ _, True)); [apply returns_any|].
      intros C _. apply returns_ret. split; [by exists C|].
      by rewrite !lookup_insert_ne.
  - by apply returns_ret.
Qed.

Lemma attach_or_detach_exits an dn token enabled disabled te td changed result Q :
  exits_with (attach_or_detach run_command json_loads pro an dn token enabled
                disabled te td changed result) Q.
Proof.
  unfold attach_or_detach, _maybe_detach, _maybe_attach, _get_status. never_exits.
Qed.

Lemma enable_step_returns te changed result :
  result !! "enabled" = None → result !! "disabled" = None →
  returns (enable_step run_command json_loads pro te changed result)
          (λ r, r.2 !! "enabled" = (if nonempty te then Some (str_list te) else None)
                ∧ r.2 !! "disabled" = None).
Proof.
  intros Hen Hdis. unfold enable_step. destruct (nonempty te).
  - eapply returns_bind.
    + apply (action_returns _
               (λ v, <["enabled" := str_list te]> (<["enable_result" := v]> result))
               (λ r, r !! "enabled" = Some (str_list te) ∧ r !! "disabled" = None)).
      intros v. by simplify_map_eq.
    + intros [c r] Hr. by apply returns_ret.
  - by apply returns_ret.
Qed.

Lemma disable_step_returns td changed result o :
  result !! "enabled" = o → result !! "disabled" = None →
  returns (disable_step run_command json_loads pro td changed result)
          (λ r, r.2 !! "enabled" = o
                ∧ r.2 !! "disabled"
                  = (if nonempty td then Some (str_list td) else None)).
Proof.
  intros Hen Hdis. unfold disable_step. destruct (nonempty td).
  - eapply returns_bind.
    + apply (action_returns _
               (λ v, <["disabled" := str_list td]> (<["disable_result" := v]> result))
               (λ r, r !! "enabled" = o ∧ r !! "disabled" = Some (str_list td))).
      intros v. by simplify_map_eq.
    + intros [c r] Hr. by apply returns_ret.
  - by apply returns_ret.
Qed.

Lemma final_status_returns changed result :
  returns (final_status run_command json_loads pro changed result)
          (λ r, r !! "enabled" = result !! "enabled"
                ∧ r !! "disabled" = result !! "disabled").
Proof.
  unfold final_status. destruct changed.
  - apply (returns_bind _ _ (λ _, True)); [apply returns_any|].
    intros status _. apply returns_ret. by rewrite !lookup_insert_ne.
  - by apply returns_ret.
Qed.

Lemma str_list_inj l1 l2 : str_list l1 = str_list l2 → l1 = l2.
Proof.
  unfold str_list. intros [= H]. revert l2 H.
  induction l1 as [|x l1 IH]; intros [|y l2]; simpl; try done.
  intros [= -> H]. by rewrite (IH _ H).
Qed.

Lemma reports_disjoint_intro (kw : gmap string pyval) enabled disabled C :
  kw !! "enabled"
  = (if nonempty (Plan.to_enable enabled C)
     then Some (str_list (Plan.to_enable enabled C)) else None) →
  kw !! "disabled"
  = (if nonempty (Plan.to_disable disabled C)
     then Some (str_list (Plan.to_disable disabled C)) else None) →
  reports_disjoint kw.
Proof.
  intros Hen Hdis te td Hte Htd x Hx.
  rewrite Hen in Hte. rewrite Hdis in Htd.
  destruct (nonempty (Plan.to_enable enabled C)); [|done].
  destruct (nonempty (Plan.to_disable disabled C)); [|done].
  assert (te = Plan.to_enable enabled C) as ->
    by (apply str_list_inj; congruence).
  assert (td = Plan.to_disable disabled C) as ->
    by (apply str_list_inj; congruence).
  by apply (to_enable_to_disable_disjoint enabled).
Qed.

(** Whatever [main] hands to [exit_json], the lists it reports come from
    one snapshot: the one read first, or the one read after the attach. *)
Lemma main_reports_disjoint p check_mode :
  exits_with (pro_main p check_mode) reports_disjoint.
Proof.
  intros st kw st'. rewrite main_prelude.
  destruct (required_if_missing p); [done|].
  destruct (_ && _); [done|].
  destruct (run_command (status_args pro) (world st)) as [[[rc out] err] w'].
  destruct (rc =? 0)%Z; [|done]. cbv zeta.
  destruct (_ && _); [done|].
  destruct (_collect_enabled_services (parse out)) as [e|C]; [done|].
  destruct check_mode.
  - intros [= <- _].
    destruct (check_mode_result_lookup
                (Plan.attach_needed (p_state p) (default [] (p_enabled p))
                   (default [] (p_disabled p)) (_status_attached (parse out)))
                (Plan.detach_needed (p_state p) (_status_attached (parse out)))
                (Plan.to_enable (default [] (p_enabled p)) C)
                (Plan.to_disable (default [] (p_disabled p)) C) (parse out))
      as (_ & _ & Hen & Hdis & _).
    exact (reports_disjoint_intro _ _ _ C Hen Hdis).
  - revert kw st'. generalize (MState w' (calls st ++ [(status_args pro, (rc, out, err))])).
    change (exits_with
      (execute_plan run_command json_loads pro
         (Plan.attach_needed (p_state p) (default [] (p_enabled p))
            (default [] (p_disabled p)) (_status_attached (parse out)))
         (Plan.detach_needed (p_state p) (_status_attached (parse out)))
         (p_token p) (default [] (p_enabled p)) (default [] (p_disabled p))
         (Plan.to_enable (default [] (p_enabled p)) C)
         (Plan.to_disable (default [] (p_disabled p)) C)
         (<["status" := parse out]> {[ "changed" := PBool false ]}))
      reports_disjoint).
    unfold execute_plan.
    eapply exits_with_bind;
      [apply attach_or_detach_exits | apply attach_or_detach_returns |].
    { split; [by exists C|]. by simplify_map_eq. }
    intros [[[changed result] te] td] ((C' & -> & ->) & Hen & Hdis).
    eapply exits_with_bind;
      [unfold enable_step, _maybe_enable_services; never_exits
      | by apply enable_step_returns |].
    intros [changed1 result1] [Hen1 Hdis1]. simpl in Hen1, Hdis1.
    eapply exits_with_bind;
      [unfold disable_step, _maybe_disable_services; never_exits
      | by apply (disable_step_returns _ _ _ _ Hen1) |].
    intros [changed2 result2] [Hen2 Hdis2]. simpl in Hen2, Hdis2.
    eapply exits_with_bind;
      [unfold final_status, _get_status; never_exits
      | apply final_status_returns |].
    intros result3 [Hen3 Hdis3].
    apply exits_with_exit_json.
    apply (reports_disjoint_intro _ (default [] (p_enabled p))
             (default [] (p_disabled p)) C').
    + by rewrite lookup_insert_ne, Hen3.
    + by rewrite lookup_insert_ne, Hdis3.
Qed.

(** C9: the two lists of a plan computed from one snapshot share no
    service; a service asked for in both desired lists goes to
    [to_disable] when it is enabled and to [to_enable] when it is not.
    The lists a run reports were computed from one snapshot, the one
    read first or the one read after the attach, so they share no
    service either. *)
Theorem plan_lists_disjoint (p : params) (check_mode : bool) (w : World) :
  (∀ status C E D,
     _collect_enabled_services status = inr C →
     (∀ x, x ∈ Plan.to_enable E C → x ∉ Plan.to_disable D C) ∧
     (∀ x, x ∈ E → x ∈ D →
           (x ∈ C → x ∈ Plan.to_disable D C ∧ x ∉ Plan.to_enable E C) ∧
           (x ∉ C → x ∈ Plan.to_enable E C ∧ x ∉ Plan.to_disable D C))) ∧
  (∀ kw to_enable to_disable,
     (pro_run p check_mode w).1 = ExitJson kw →
     kw !! "enabled" = Some (str_list to_enable) →
     kw !! "disabled" = Some (str_list to_disable) →
     ∀ x, x ∈ to_enable → x ∉ to_disable).
Proof.
  split.
  - intros status C E D _. split.
    + intros x. apply to_enable_to_disable_disjoint.
    + intros x HE HD. rewrite !elem_of_to_enable, !elem_of_to_disable. tauto.
  - intros kw te td Hrun. unfold run in Hrun.
    destruct (pro_main p check_mode (MState w [])) as [o st'] eqn:Hmain.
    simpl in Hrun. subst o.
    exact (main_reports_disjoint p check_mode _ _ _ Hmain te td).
Qed.
End RunProperties.

(** ** The properties of runs on the scripted machine *)

Lemma execute_output_parsing_witness :
  _execute scripted sample_loads (status_args sample_pro)
    (MState [(0%Z, "not json", "")] [])
  = (Return (PDict {[ "raw" := PStr "not json" ]}, "not json", ""),
     MState [] [(status_args sample_pro, (0%Z, "not json", ""))]).
Proof.
  apply (execute_output_parsing scripted sample_loads sample_pro
           (status_args sample_pro) (MState [(0%Z, "not json", "")] [])
           "not json" "" []);
    [reflexivity | discriminate | reflexivity].
Defined.

Lemma check_mode_dry_run_witness :
  ∃ kw,
    sample_run (Params None None (Some ["esm-apps"; "livepatch"]) None) true
      [(0%Z, json_field "attached" "true", "")]
    = (ExitJson kw,
       MState [] [(status_args sample_pro, (0%Z, json_field "attached" "true", ""))]) ∧
    kw !! "changed" = Some (PBool true) ∧
    kw !! "enabled" = Some (str_list ["esm-apps"; "livepatch"]) ∧
    kw !! "disabled" = None ∧
    kw !! "enable_result" = None.
Proof.
  destruct (proj2 (proj2
              (check_mode_dry_run scripted sample_loads sample_pro
                 (Params None None (Some ["esm-apps"; "livepatch"]) None)
                 [(0%Z, json_field "attached" "true", "")]))
              (json_field "attached" "true") "" [] ∅)
    as (kw & Hrun & Hchanged & _ & _ & Hen & Hdis & _ & _ & Hres & _);
    [reflexivity | reflexivity | reflexivity | reflexivity
    | vm_compute; reflexivity |].
  exists kw. split; [exact Hrun|]. split; [|split; [exact Hen|split; [exact Hdis|exact Hres]]].
  apply Hchanged. right. right. left. discriminate.
Defined.

(** C3, as the specification words it, fails: with a list of services
    to enable, no state and no token, on a system that is not attached,
    the validation failure comes after one external call, the status
    read. *)
Lemma token_required_counterexample :
  let p := Params None None (Some ["livepatch"]) None in
  let r := sample_run p false [(0%Z, "", "")] in
  default [] (p_enabled p) ≠ [] ∧ token_given (p_token p) = false ∧
  r.1 = FailJson {[ "msg" := PStr "token is required to attach the system" ]} ∧
  calls r.2 = [([sample_pro; "status"; "--wait"; "--format=json"], (0%Z, "", ""))] ∧
  calls r.2 ≠ [].
Proof.
  repeat split; try (vm_compute; reflexivity); discriminate.
Qed.

Lemma token_required_witness :
  sample_run (Params None None (Some ["livepatch"]) None) false [(0%Z, "", "")]
  = (FailJson {[ "msg" := PStr "token is required to attach the system" ]},
     MState [] [(status_args sample_pro, (0%Z, "", ""))]).
Proof.
  apply (token_required scripted sample_loads sample_pro
           (Params None None (Some ["livepatch"]) None) false
           [(0%Z, "", "")] "" "" []);
    [right; left; discriminate | reflexivity | reflexivity | reflexivity].
Defined.

(** C7, as the specification words it, fails: the argument vector the
    failure of an enable of "livepatch" carries has five elements, the
    first being the path of the executable. *)
Lemma nonzero_exit_aborts_counterexample :
  let r := sample_run (Params None None (Some ["livepatch"]) None) false
             [(0%Z, json_field "attached" "true", ""); (1%Z, "", "boom")] in
  ∃ kw, r.1 = FailJson kw ∧
        kw !! "cmd" = Some (str_list ["/usr/bin/pro"; "enable"; "--assume-yes";
                                      "--format=json"; "livepatch"]) ∧
        kw !! "cmd" ≠ Some (str_list ["enable"; "--assume-yes"; "--format=json";
                                      "livepatch"]).
Proof.
  exists (command_failed 1 "" "boom"
            ["/usr/bin/pro"; "enable"; "--assume-yes"; "--format=json"; "livepatch"]).
  split; [vm_compute; reflexivity|]. split; [vm_compute; reflexivity|].
  vm_compute. discriminate.
Qed.

Lemma nonzero_exit_aborts_witness :
  ∃ kw,
    (sample_run (Params None None (Some ["livepatch"]) None) false
       [(0%Z, json_field "attached" "true", ""); (1%Z, "", "boom")]).1
    = FailJson kw ∧
    kw !! "rc" = Some (PInt 1) ∧ kw !! "stdout" = Some (PStr "") ∧
    kw !! "stderr" = Some (PStr "boom") ∧
    kw !! "cmd" = Some (str_list [sample_pro; "enable"; "--assume-yes";
                                  "--format=json"; "livepatch"]).
Proof.
  apply (proj1 (nonzero_exit_aborts scripted sample_loads sample_pro
                  (Params None None (Some ["livepatch"]) None) false
                  [(0%Z, json_field "attached" "true", ""); (1%Z, "", "boom")])
           [(status_args sample_pro, (0%Z, json_field "attached" "true", ""))]
           [sample_pro; "enable"; "--assume-yes"; "--format=json"; "livepatch"]
           1%Z "" "boom" []);
    [vm_compute; reflexivity | discriminate].
Defined.

Lemma plan_lists_disjoint_witness :
  "esm-apps" ∈ Plan.to_disable ["livepatch"; "esm-apps"] {[ "esm-apps" ]} ∧
  "esm-apps" ∉ Plan.to_enable ["esm-apps"; "livepatch"] {[ "esm-apps" ]}.
Proof.
  apply (proj1 (plan_lists_disjoint scripted sample_loads sample_pro
                  (Params None None None None) true [])
           sample_status {[ "esm-apps" ]}
           ["esm-apps"; "livepatch"] ["livepatch"; "esm-apps"]).
  - vm_compute. reflexivity.
  - apply list_elem_of_here.
  - apply list_elem_of_further, list_elem_of_here.
  - apply elem_of_singleton. reflexivity.
Defined.

(** ** Further properties of the status interpretation *)

Local Open Scope list_scope.

Section Interpretation.
Implicit Types (C S : gset string) (entries : list pyval) (status : pyval).

Lemma collect_step_ok S v : entry_ok v → ∃ S', collect_step S v = inr S'.
Proof.
  intros (d & -> & Hname). simpl.
  destruct (negb (truthy (dict_get d "name"))); [by eexists|].
  destruct (_service_enabled d); [|by eexists].
  destruct (dict_get d "name"); simpl in *; try done; by eexists.
Qed.

Lemma collect_loop_ok entries : ∀ S,
  Forall entry_ok entries → ∃ C, collect_loop S entries = inr C.
Proof.
  induction entries as [|v entries IH]; intros S Hok; simpl; [by eexists|].
  apply Forall_cons in Hok as [Hv Hok].
  destruct (collect_step_ok S v Hv) as [S' ->]. by apply IH.
Qed.

Lemma collect_loop_app entries1 entries2 : ∀ S S',
  collect_loop S entries1 = inr S' →
  collect_loop S (entries1 ++ entries2) = collect_loop S' entries2.
Proof.
  induction entries1 as [|v entries1 IH]; intros S S'; simpl.
  - by intros [= ->].
  - destruct (collect_step S v) as [e|S1]; [done|]. apply IH.
Qed.

Lemma collect_step_nameless S (d : gmap string pyval) :
  dict_get d "name" = PNone ∨ dict_get d "name" = PStr "" →
  collect_step S (PDict d) = inr S.
Proof. unfold collect_step. by intros [-> | ->]. Qed.

(** Whether an iteration raises does not depend on the set built so
    far. *)
Lemma collect_step_raises S1 S2 v e :
  collect_step S1 v = inl e → collect_step S2 v = inl e.
Proof.
  destruct v as [| | | | | |d]; simpl; try done.
  destruct (negb (truthy (dict_get d "name"))); [done|].
  destruct (_service_enabled d); [|done].
  by destruct (dict_get d "name").
Qed.

Lemma collect_loop_succeeds entries : ∀ S,
  (∃ C, collect_loop S entries = inr C)
  ↔ Forall (λ v, ∃ S', collect_step ∅ v = inr S') entries.
Proof.
  induction entries as [|v entries IH]; intros S; simpl.
  - split; [by intros _|by eexists].
  - rewrite Forall_cons. destruct (collect_step S v) as [e|S1] eqn:Hstep.
    + split; [by intros [C ?]|]. intros [[S' HS'] _].
      destruct (collect_step S v) eqn:Hv; [|done].
      by rewrite (collect_step_raises _ ∅ _ _ Hv) in HS'.
    + rewrite IH. split; [|tauto]. intros HF. split; [|done].
      destruct (collect_step ∅ v) as [e|S'] eqn:Hv; [|by eexists].
      by rewrite (collect_step_raises _ S _ _ Hv) in Hstep.
Qed.
End Interpretation.

(** X1: when every entry of the services list is a dict whose name, if
    it has one, is not a list or a dict, [_collect_enabled_services]
    raises nothing, and an entry without a name, or with a name that is
    empty or [None], adds nothing to the set. *)
Theorem collect_well_formed (status : pyval) (entries : list pyval) :
  service_entries status = PList entries →
  Forall entry_ok entries →
  ∃ C, _collect_enabled_services status = inr C ∧
       ∀ d, dict_get d "name" = PNone ∨ dict_get d "name" = PStr "" →
            ∀ l1 l2, entries = l1 ++ PDict d :: l2 →
                     collect_loop ∅ (l1 ++ l2) = inr C.
Proof.
  intros Hentries Hok. unfold _collect_enabled_services. rewrite Hentries. simpl.
  destruct (collect_loop_ok entries ∅ Hok) as [C HC]. exists C. split; [done|].
  intros d Hname l1 l2 ->.
  apply Forall_app in Hok as [Hok1 Hok2].
  destruct (collect_loop_ok l1 ∅ Hok1) as [C1 HC1].
  rewrite (collect_loop_app _ _ _ _ HC1) in HC.
  rewrite (collect_loop_app _ _ _ _ HC1). cbn [collect_loop] in HC.
  by rewrite (collect_step_nameless _ _ Hname) in HC.
Qed.

Lemma collect_well_formed_witness :
  ∃ C, _collect_enabled_services
         (PDict {[ "services" :=
                     PList [PDict {[ "status" := PStr "enabled" ]};
                            PDict {[ "name" := PStr "livepatch";
                                     "status" := PStr "enabled" ]}] ]})
       = inr C ∧
       collect_loop ∅ [PDict {[ "name" := PStr "livepatch";
                                 "status" := PStr "enabled" ]}] = inr C.
Proof.
  destruct (collect_well_formed
              (PDict {[ "services" :=
                          PList [PDict {[ "status" := PStr "enabled" ]};
                                 PDict {[ "name" := PStr "livepatch";
                                          "status" := PStr "enabled" ]}] ]})
              [PDict {[ "status" := PStr "enabled" ]};
               PDict {[ "name" := PStr "livepatch"; "status" := PStr "enabled" ]}])
    as (C & HC & Hskip).
  - reflexivity.
  - repeat constructor; eexists; (split; [reflexivity|exact I]).
  - exists C. split; [exact HC|].
    refine (Hskip {[ "status" := PStr "enabled" ]} _ []
              [PDict {[ "name" := PStr "livepatch"; "status" := PStr "enabled" ]}] _);
      [left; vm_compute; reflexivity | reflexivity].
Defined.

(** X2: the loop of [_collect_enabled_services] stops at the first
    entry it cannot handle, after entries it can: an entry that is not a
    dict raises [AttributeError], an enabled entry whose name is a
    non-empty list or dict raises [TypeError]; and a [services] field
    that is [None], a boolean or a number raises [TypeError]. *)
Theorem collect_malformed_raises (status : pyval) :
  (∀ entries l1 v l2,
     service_entries status = PList entries →
     entries = l1 ++ v :: l2 →
     Forall entry_ok l1 →
     ((∀ d, v ≠ PDict d) → _collect_enabled_services status = inl AttributeError) ∧
     (∀ d, v = PDict d →
           truthy (dict_get d "name") = true →
           ¬ hashable (dict_get d "name") →
           _service_enabled d = true →
           _collect_enabled_services status = inl TypeError)) ∧
  (service_entries status = PNone
   ∨ (∃ b, service_entries status = PBool b)
   ∨ (∃ z, service_entries status = PInt z)
   ∨ (∃ f, service_entries status = PFloat f) →
   _collect_enabled_services status = inl TypeError).
Proof.
  split.
  - intros entries l1 v l2 Hentries -> Hok.
    unfold _collect_enabled_services. rewrite Hentries. simpl.
    destruct (collect_loop_ok l1 ∅ Hok) as [C1 HC1].
    rewrite (collect_loop_app _ _ _ _ HC1). cbn [collect_loop]. split.
    + intros Hv. destruct v as [| | | | | |d]; try done. by destruct (Hv d).
    + intros d -> Hname Hhash Hen. unfold collect_step.
      rewrite Hname, Hen. simpl.
      by destruct (dict_get d "name"); simpl in *; try done; destruct Hhash.
  - unfold _collect_enabled_services.
    by intros [-> | [[b ->] | [[z ->] | [f ->]]]].
Qed.

Lemma collect_malformed_raises_witness :
  _collect_enabled_services
    (PDict {[ "services" := PList [PDict {[ "name" := PStr "esm-apps" ]};
                                   PStr "livepatch"] ]})
  = inl AttributeError.
Proof.
  refine (proj1 (proj1 (collect_malformed_raises
            (PDict {[ "services" := PList [PDict {[ "name" := PStr "esm-apps" ]};
                                           PStr "livepatch"] ]}))
            [PDict {[ "name" := PStr "esm-apps" ]}; PStr "livepatch"]
            [PDict {[ "name" := PStr "esm-apps" ]}] (PStr "livepatch") []
            _ _ _) _).
  - reflexivity.
  - reflexivity.
  - repeat constructor. eexists. split; [reflexivity|exact I].
  - discriminate.
Defined.

(** X3: the set [_collect_enabled_services] returns does not depend on
    the order of the entries: when it returns for a services list, it
    returns the same set for every permutation of that list. *)
Theorem collect_order_irrelevant (status status' : pyval)
    (entries entries' : list pyval) (C : gset string) :
  service_entries status = PList entries →
  service_entries status' = PList entries' →
  entries ≡ₚ entries' →
  _collect_enabled_services status = inr C →
  _collect_enabled_services status' = inr C.
Proof.
  unfold _collect_enabled_services. intros -> -> Hperm. simpl. intros HC.
  assert (∃ C', collect_loop ∅ entries' = inr C') as [C' HC'].
  { apply collect_loop_succeeds. rewrite <- Hperm.
    apply (collect_loop_succeeds entries ∅). by exists C. }
  rewrite HC'. f_equal. apply set_eq. intros n.
  rewrite (collect_loop_spec _ _ _ n HC), (collect_loop_spec _ _ _ n HC').
  by setoid_rewrite Hperm.
Qed.

Lemma collect_order_irrelevant_witness :
  _collect_enabled_services
    (PDict {[ "services" := PList [PDict {[ "name" := PStr "livepatch";
                                            "enabled" := PBool true ]};
                                   PDict {[ "name" := PStr "esm-apps";
                                            "status" := PStr "enabled" ]}] ]})
  = inr {[ "esm-apps"; "livepatch" ]}.
Proof.
  apply (collect_order_irrelevant
           (PDict {[ "services" := PList [PDict {[ "name" := PStr "esm-apps";
                                                   "status" := PStr "enabled" ]};
                                          PDict {[ "name" := PStr "livepatch";
                                                   "enabled" := PBool true ]}] ]})
           _
           [PDict {[ "name" := PStr "esm-apps"; "status" := PStr "enabled" ]};
            PDict {[ "name" := PStr "livepatch"; "enabled" := PBool true ]}]
           [PDict {[ "name" := PStr "livepatch"; "enabled" := PBool true ]};
            PDict {[ "name" := PStr "esm-apps"; "status" := PStr "enabled" ]}]).
  - reflexivity.
  - reflexivity.
  - apply perm_swap.
  - vm_compute. reflexivity.
Defined.

(** X4: a status that is not a dict ([None] after an empty output, a
    list, a number), or a dict with neither an [attached] nor a
    [services] field (such as the [raw] wrapper), reads as not attached
    with no enabled service, so that the plan enables every service
    asked for and disables none. *)
Theorem degraded_status_plan (status : pyval) (E D : list string) :
  (∀ d, status = PDict d → d !! "attached" = None ∧ d !! "services" = None) →
  _status_attached status = false ∧
  ∃ C, _collect_enabled_services status = inr C ∧
       Plan.to_enable E C = E ∧ Plan.to_disable D C = [].
Proof.
  intros Hd.
  assert (_status_attached status = false
          ∧ _collect_enabled_services status = inr ∅) as [Hatt HC].
  { destruct status as [| | | | | |d]; try done.
    destruct (Hd d eq_refl) as [Ha Hs].
    unfold _status_attached, _collect_enabled_services, service_entries.
    by rewrite Ha, Hs. }
  split; [done|]. exists ∅. split; [done|]. split.
  - unfold Plan.to_enable. induction E as [|x E IH]; [done|].
    rewrite filter_cons_True by apply not_elem_of_empty. by rewrite IH.
  - unfold Plan.to_disable. induction D as [|x D IH]; [done|].
    by rewrite filter_cons_False by apply not_elem_of_empty.
Qed.

Lemma degraded_status_plan_witness :
  _status_attached (PDict {[ "raw" := PStr "not json" ]}) = false ∧
  ∃ C, _collect_enabled_services (PDict {[ "raw" := PStr "not json" ]}) = inr C ∧
       Plan.to_enable ["livepatch"] C = ["livepatch"] ∧
       Plan.to_disable ["esm-apps"] C = [].
Proof.
  apply (degraded_status_plan (PDict {[ "raw" := PStr "not json" ]})).
  intros d [= <-]. split; reflexivity.
Defined.

(** ** Further properties of the plan *)

Lemma filter_nil_intro {A} (P : A → Prop) `{!∀ x, Decision (P x)} (l : list A) :
  (∀ x, x ∈ l → ¬ P x) → filter P l = [].
Proof.
  intros HP. destruct (filter P l) as [|x l'] eqn:Hf; [done|].
  assert (x ∈ filter P l) as [Hx Hin]%list_elem_of_filter
    by (rewrite Hf; apply list_elem_of_here).
  by destruct (HP x Hin).
Qed.

(** X5: when no service is asked for in both lists, carrying out a plan
    leaves nothing to do: against the services enabled once [to_enable]
    has been enabled and [to_disable] disabled, both lists of the next
    plan are empty. *)
Theorem plan_converges (C : gset string) (E D : list string) :
  (∀ x, x ∈ E → x ∉ D) →
  let C' := applied C (Plan.to_enable E C) (Plan.to_disable D C) in
  Plan.to_enable E C' = [] ∧ Plan.to_disable D C' = [].
Proof.
  intros Hdisj C'. unfold C', applied. split.
  - apply filter_nil_intro. intros x HE Hx. apply Hx.
    rewrite elem_of_difference, elem_of_union, !elem_of_list_to_set,
      elem_of_to_enable, elem_of_to_disable.
    split; [|intros [HD _]; by apply (Hdisj x)].
    destruct (decide (x ∈ C)); [by left|by right].
  - apply filter_nil_intro. intros x HD.
    rewrite elem_of_difference, elem_of_union, !elem_of_list_to_set,
      elem_of_to_enable, elem_of_to_disable.
    intros [[HC | [HE _]] Hnot]; [|by apply (Hdisj x)].
    by apply Hnot.
Qed.

Lemma plan_converges_witness :
  Plan.to_enable ["livepatch"]
    (applied {[ "esm-apps" ]} (Plan.to_enable ["livepatch"] {[ "esm-apps" ]})
       (Plan.to_disable ["esm-apps"] {[ "esm-apps" ]})) = [] ∧
  Plan.to_disable ["esm-apps"]
    (applied {[ "esm-apps" ]} (Plan.to_enable ["livepatch"] {[ "esm-apps" ]})
       (Plan.to_disable ["esm-apps"] {[ "esm-apps" ]})) = [].
Proof.
  apply (plan_converges {[ "esm-apps" ]} ["livepatch"] ["esm-apps"]).
  intros x Hx%list_elem_of_singleton Hx'%list_elem_of_singleton. by subst.
Defined.



(** ** Further properties of runs *)

Section Sequencing.
Context {World : Type}.
Variable run_command : list string → World → answer * World.
Variable json_loads : string → option pyval.
Variable pro : string.

#[local] Abbreviation the_run := (run run_command json_loads pro).
#[local] Abbreviation parse_out := (parsed json_loads).

(** How a run of [_execute] can end. *)
Lemma execute_inv args st (o : outcome (pyval * string * string)) st' :
  _execute run_command json_loads args st = (o, st') →
  ∃ rc out err w',
    run_command args (world st) = ((rc, out, err), w') ∧
    st' = MState w' (calls st ++ [(args, (rc, out, err))]) ∧
    ((rc = 0%Z ∧ o = Return (parse_out out, out, err))
     ∨ (rc ≠ 0%Z ∧ o = FailJson (command_failed rc out err args))).
Proof.
  rewrite execute_run.
  destruct (run_command args (world st)) as [[[rc out] err] w'].
  exists rc, out, err, w'. split; [done|].
  destruct (Z.eqb_spec rc 0) as [-> | Hrc]; simpl in *; simplify_eq; eauto.
Qed.

(** How a run of a sequence can end: in its second part, or where its
    first part stopped. *)
Lemma bind_inv {A B} (m : M World A) (k : A → M World B) st (o : outcome B) st' :
  (m ≫= k) st = (o, st') →
  (∃ a st1, m st = (Return a, st1) ∧ k a st1 = (o, st'))
  ∨ (∃ kw, m st = (ExitJson kw, st') ∧ o = ExitJson kw)
  ∨ (∃ kw, m st = (FailJson kw, st') ∧ o = FailJson kw)
  ∨ (∃ e, m st = (Raise e, st') ∧ o = Raise e).
Proof.
  rewrite bind_run. destruct (m st) as [[a | kw | kw | e] st1].
  - intros Hk. left. by exists a, st1.
  - intros [= <- <-]. right. left. by exists kw.
  - intros [= <- <-]. right. right. left. by exists kw.
  - intros [= <- <-]. right. right. right. by exists e.
Qed.

Ltac invert_run_step :=
  match goal with
  | H : (_ ≫= _) _ = (_, _) |- _ =>
      apply bind_inv in H
        as [(? & ? & ? & H) | [(? & ? & ?) | [(? & ? & ?) | (? & ? & ?)]]]
  | H : _execute _ _ _ _ = (_, _) |- _ =>
      apply execute_inv in H as (? & ? & ? & ? & ? & ? & [[? ?] | [? ?]])
  | H : mret _ _ = (_, _) |- _ => unfold mret, M_ret in H
  | H : exit_json _ _ = (_, _) |- _ => unfold exit_json in H
  | H : fail_json _ _ = (_, _) |- _ => unfold fail_json in H
  | H : lift ?r _ = (_, _) |- _ => destruct r eqn:?; simpl in H
  | H : (if ?b then _ else _) _ = (_, _) |- _ => destruct b eqn:?
  | H : (let '(_, _) := ?x in _) _ = (_, _) |- _ => destruct x
  end; simplify_eq.
Ltac invert_run := repeat invert_run_step.

(** The ways a run of [main] can go up to the plan, and what is left to
    run after it. *)
Lemma run_inv p check_mode w (o : outcome unit) st :
  the_run p check_mode w = (o, st) →
  let enabled := default [] (p_enabled p) in
  let disabled := default [] (p_disabled p) in
  (required_if_missing p = true ∧ st = MState w [] ∧
   o = FailJson {[ "msg" := PStr "state is attached but all of the following are missing: token" ]})
  ∨ (required_if_missing p = false ∧
     bool_decide (p_state p = Some Detached) && (nonempty enabled || nonempty disabled)
     = true ∧ st = MState w [] ∧
     o = FailJson {[ "msg" := PStr "enabled/disabled cannot be used with state=detached" ]})
  ∨ (required_if_missing p = false ∧
     bool_decide (p_state p = Some Detached) && (nonempty enabled || nonempty disabled)
     = false ∧
     ∃ rc out err w',
       run_command (status_args pro) w = ((rc, out, err), w') ∧
       let st1 := MState w' [(status_args pro, (rc, out, err))] in
       let status := parse_out out in
       let attach_needed :=
         Plan.attach_needed (p_state p) enabled disabled (_status_attached status) in
       let detach_needed := Plan.detach_needed (p_state p) (_status_attached status) in
       let result : gmap string pyval :=
         <["status" := status]> {[ "changed" := PBool false ]} in
       (rc ≠ 0%Z ∧ st = st1 ∧
        o = FailJson (command_failed rc out err (status_args pro)))
       ∨ (rc = 0%Z ∧ attach_needed && negb (token_given (p_token p)) = true ∧
          st = st1 ∧
          o = FailJson {[ "msg" := PStr "token is required to attach the system" ]})
       ∨ (rc = 0%Z ∧ attach_needed && negb (token_given (p_token p)) = false ∧
          ∃ e, _collect_enabled_services status = inl e ∧ st = st1 ∧ o = Raise e)
       ∨ (rc = 0%Z ∧ attach_needed && negb (token_given (p_token p)) = false ∧
          ∃ C, _collect_enabled_services status = inr C ∧
               let to_enable := Plan.to_enable enabled C in
               let to_disable := Plan.to_disable disabled C in
               (check_mode = true ∧ st = st1 ∧
                o = ExitJson (check_mode_result attach_needed detach_needed
                                to_enable to_disable result))
               ∨ (check_mode = false ∧
                  execute_plan run_command json_loads pro attach_needed
                    detach_needed (p_token p) enabled disabled to_enable
                    to_disable result st1 = (o, st)))).
Proof.
  unfold run. rewrite main_prelude. simpl world. simpl calls. cbv zeta.
  destruct (required_if_missing p); [intros [= <- <-]; by left|].
  destruct (bool_decide _ && (_ || _)); [intros [= <- <-]; right; by left|].
  destruct (run_command (status_args pro) w) as [[[rc out] err] w'].
  intros Hrun. right. right. do 2 (split; [done|]). exists rc, out, err, w'.
  split; [done|].
  destruct (Z.eqb_spec rc 0) as [-> | Hrc];
    [|injection Hrun as <- <-; by left].
  right.
  destruct (Plan.attach_needed _ _ _ _ && negb _);
    [injection Hrun as <- <-; by left|].
  right.
  destruct (_collect_enabled_services (parse_out out)) as [e | C];
    [injection Hrun as <- <-; left; do 2 (split; [done|]); by exists e|].
  right. do 2 (split; [done|]). exists C. split; [done|].
  destruct check_mode; [injection Hrun as <- <-; by left|by right].
Qed.

(** What is left of a run once [run_inv] has been applied. *)
Ltac run_cases H :=
  apply run_inv in H; cbv zeta in H;
  destruct H as
    [(Hrequired & ? & ?)
    | [(Hrequired & Hdetached & ? & ?)
      | (Hrequired & Hdetached & rc0 & out0 & err0 & w0 & Hstatus &
         [(Hrc0 & ? & ?)
         | [(? & Htoken & ? & ?)
           | [(? & Htoken & exc & Hcollect & ? & ?)
             | (? & Htoken & C0 & Hcollect &
                [(? & ? & ?) | (? & H)])]]])]];
  simplify_eq.

Ltac plan_cases H :=
  unfold execute_plan, attach_or_detach, enable_step, disable_step, final_status,
    _maybe_detach, _maybe_attach, _maybe_enable_services, _maybe_disable_services,
    _get_status in H;
  invert_run.

(** X7: the commands of a run, in the order in which they are issued,
    are taken in order from: status, detach, attach, status, enable,
    disable, status.  The first command of a run is the status read, a
    run never both attaches and detaches, and it makes at most six
    invocations. *)
Theorem run_in_order (p : params) (check_mode : bool) (w : World) :
  let log := calls (the_run p check_mode w).2 in
  kind <$> log `sublist_of` run_order ∧
  (∀ c, head log = Some c → c.1 = status_args pro) ∧
  ¬ ("attach" ∈ kind <$> log ∧ "detach" ∈ kind <$> log) ∧
  (List.length log ≤ 6)%nat.
Proof.
  destruct (the_run p check_mode w) as [o st] eqn:Hrun. simpl.
  run_cases Hrun; try plan_cases Hrun; unfold kind, status_args; simpl.
  all: split;
    [repeat first [apply sublist_nil | apply sublist_skip | apply sublist_cons]|].
  all: split; [intros c Hc; by simplify_eq|].
  all: split; [|lia].
  all: rewrite ?elem_of_cons, ?elem_of_nil; intuition discriminate.
Qed.
Lemma token_given_true (token : option string) :
  token_given token = true → ∃ t, token = Some t ∧ t ≠ "".
Proof.
  destruct token as [t|]; simpl; [|done]. intros Ht. exists t. split; [done|].
  intros ->. done.
Qed.

Lemma allowed_status p : allowed pro p (status_args pro).
Proof. by left. Qed.

Lemma allowed_attach p (an : bool) :
  an && token_given (p_token p) = true →
  allowed pro p [pro; "attach"; "--format=json"; default "" (p_token p)].
Proof.
  intros [_ (t & Ht & Hne)%token_given_true]%andb_true_iff.
  right. left. exists t. rewrite Ht. by repeat split.
Qed.

Lemma allowed_detach p attached :
  Plan.detach_needed (p_state p) attached = true →
  allowed pro p [pro; "detach"; "--assume-yes"; "--format=json"].
Proof.
  intros [Hstate%bool_decide_eq_true _]%andb_true_iff. right. right. by left.
Qed.

Lemma allowed_enable p C :
  nonempty (Plan.to_enable (default [] (p_enabled p)) C) = true →
  allowed pro p (pro :: "enable" :: "--assume-yes" :: "--format=json"
                 :: Plan.to_enable (default [] (p_enabled p)) C).
Proof.
  intros Hne%nonempty_true. right. right. right. left.
  exists (Plan.to_enable (default [] (p_enabled p)) C).
  split; [done|]. split; [apply sublist_filter|done].
Qed.

Lemma allowed_disable p C :
  nonempty (Plan.to_disable (default [] (p_disabled p)) C) = true →
  allowed pro p (pro :: "disable" :: "--assume-yes" :: "--format=json"
                 :: Plan.to_disable (default [] (p_disabled p)) C).
Proof.
  intros Hne%nonempty_true. right. right. right. right.
  exists (Plan.to_disable (default [] (p_disabled p)) C).
  split; [done|]. split; [apply sublist_filter|done].
Qed.

(** X8: every argument vector a run passes to [module.run_command] has
    one of five shapes: the status read; an attach with the token of
    the caller, which is then not empty; a detach, only when the state
    asked for is [detached]; an enable, or a disable, of a non-empty
    selection, in their order, of the services asked for. *)
Theorem invocations_allowed (p : params) (check_mode : bool) (w : World) :
  Forall (λ c, allowed pro p c.1) (calls (the_run p check_mode w).2).
Proof.
  destruct (the_run p check_mode w) as [o st] eqn:Hrun. simpl.
  run_cases Hrun; try plan_cases Hrun; simpl.
  all: repeat apply Forall_cons_2; try apply Forall_nil_2; simpl.
  all: eauto using allowed_status, allowed_attach, allowed_detach,
         allowed_enable, allowed_disable.
Qed.
(** X9: outside check mode, the [changed] field of the result is true
    exactly when one of the four actions ran, that is when the result
    holds one of the four [*_result] fields, and false exactly when the
    status read is the only invocation of the run. *)
Theorem changed_iff_action (p : params) (w : World)
    (kw : gmap string pyval) (st : mstate World) :
  the_run p false w = (ExitJson kw, st) →
  ∃ b : bool,
    kw !! "changed" = Some (PBool b) ∧
    (b = true ↔ is_Some (kw !! "attach_result") ∨ is_Some (kw !! "detach_result")
                ∨ is_Some (kw !! "enable_result") ∨ is_Some (kw !! "disable_result")) ∧
    (b = false ↔ List.length (calls st) = 1%nat).
Proof.
  intros Hrun. run_cases Hrun; try plan_cases Hrun; simpl.
  all: eexists; split; [by simplify_map_eq|].
  all: simplify_map_eq; rewrite ?is_Some_alt; simpl.
  all: split; split; intros; first [done | lia | tauto | intuition discriminate].
Qed.
(** X10: in the result of a run, [status] and [changed] are always
    present; [attach_result] and [detach_result] are never both
    present; and outside check mode [enabled] is present exactly when
    [enable_result] is, and [disabled] exactly when [disable_result]
    is. *)
Theorem result_fields_paired (p : params) (check_mode : bool) (w : World)
    (kw : gmap string pyval) (st : mstate World) :
  the_run p check_mode w = (ExitJson kw, st) →
  is_Some (kw !! "status") ∧ is_Some (kw !! "changed") ∧
  ¬ (is_Some (kw !! "attach_result") ∧ is_Some (kw !! "detach_result")) ∧
  (check_mode = false →
   (is_Some (kw !! "enabled") ↔ is_Some (kw !! "enable_result")) ∧
   (is_Some (kw !! "disabled") ↔ is_Some (kw !! "disable_result"))).
Proof.
  intros Hrun. run_cases Hrun; try plan_cases Hrun; simpl.
  2-13: simplify_map_eq; rewrite ?is_Some_alt; simpl;
    repeat split; intros; first [done | tauto | intuition discriminate].
  destruct (check_mode_result_lookup
              (Plan.attach_needed (p_state p) (default [] (p_enabled p))
                 (default [] (p_disabled p)) (_status_attached (parse_out out0)))
              (Plan.detach_needed (p_state p) (_status_attached (parse_out out0)))
              (Plan.to_enable (default [] (p_enabled p)) C0)
              (Plan.to_disable (default [] (p_disabled p)) C0) (parse_out out0))
    as (-> & -> & _ & _ & -> & -> & _).
  rewrite !is_Some_alt. repeat split; intros; first [done | tauto | intuition discriminate].
Qed.

(** X11: the status a run returns is the one parsed from the output of
    its last invocation, which is a successful status read: the first
    one when no action ran, the one made after the last action
    otherwise. *)
Theorem returned_status_fresh (p : params) (check_mode : bool) (w : World)
    (kw : gmap string pyval) (st : mstate World) :
  the_run p check_mode w = (ExitJson kw, st) →
  ∃ log out err,
    calls st = log ++ [(status_args pro, (0%Z, out, err))] ∧
    kw !! "status" = Some (parse_out out).
Proof.
  intros Hrun. run_cases Hrun; try plan_cases Hrun; simpl.
  2-13: first
    [ eexists [], _, _; split; [reflexivity|by simplify_map_eq]
    | eexists [_], _, _; split; [reflexivity|by simplify_map_eq]
    | eexists [_; _], _, _; split; [reflexivity|by simplify_map_eq]
    | eexists [_; _; _], _, _; split; [reflexivity|by simplify_map_eq]
    | eexists [_; _; _; _], _, _; split; [reflexivity|by simplify_map_eq]
    | eexists [_; _; _; _; _], _, _; split; [reflexivity|by simplify_map_eq] ].
  eexists [], _, _. split; [reflexivity|]. apply check_mode_result_lookup.
Qed.

(** X12: after an attach the plan is computed again: the services a run
    enables or disables after it has attached are those the lists asked
    for select against the status read made right after the attach, not
    against the one made before. *)
Theorem post_attach_recompute (p : params) (check_mode : bool) (w : World)
    (c1 : list string * answer) (token : string) (a2 : answer)
    (rc : Z) (out err : string) (rest : list (list string * answer)) :
  calls (the_run p check_mode w).2
  = c1 :: ([pro; "attach"; "--format=json"; token], a2)
       :: (status_args pro, (rc, out, err)) :: rest →
  ∀ services a,
    (([pro; "enable"; "--assume-yes"; "--format=json"] ++ services, a) ∈ rest →
     ∃ C, _collect_enabled_services (parse_out out) = inr C ∧
          services = Plan.to_enable (default [] (p_enabled p)) C) ∧
    (([pro; "disable"; "--assume-yes"; "--format=json"] ++ services, a) ∈ rest →
     ∃ C, _collect_enabled_services (parse_out out) = inr C ∧
          services = Plan.to_disable (default [] (p_disabled p)) C).
Proof.
  destruct (the_run p check_mode w) as [o st] eqn:Hrun. simpl.
  run_cases Hrun; try plan_cases Hrun; simpl; unfold status_args;
    intros Hlog; simplify_eq.
  all: intros services a; rewrite ?elem_of_cons, ?elem_of_nil; simpl.
  all: split; intros Hin; repeat destruct Hin as [Hin | Hin];
    cbn [app] in Hin; simplify_eq;
    first [done | eexists; split; [eassumption|reflexivity]].
Qed.

(** X13: [state=detached] together with a non-empty list of services
    to enable or to disable is refused before anything is run, in check
    mode or not, whatever the token. *)
Theorem detached_with_lists_rejected (p : params) (check_mode : bool) (w : World) :
  p_state p = Some Detached →
  default [] (p_enabled p) ≠ [] ∨ default [] (p_disabled p) ≠ [] →
  the_run p check_mode w
  = (FailJson {[ "msg" := PStr "enabled/disabled cannot be used with state=detached" ]},
     MState w []).
Proof.
  intros Hstate Hlists. unfold run. rewrite main_prelude.
  assert (required_if_missing p = false) as ->
    by (unfold required_if_missing; by rewrite Hstate).
  assert (bool_decide (p_state p = Some Detached)
          && (nonempty (default [] (p_enabled p))
              || nonempty (default [] (p_disabled p))) = true) as ->; [|done].
  rewrite Hstate. apply andb_true_iff. split; [done|]. apply orb_true_iff.
  by rewrite !nonempty_true.
Qed.

(** X14: a run that finds nothing to do does nothing: when the status
    read shows that no attach and no detach is needed and that both
    lists of the plan are empty, the run makes no other invocation and
    exits with [changed] false and the status it read, and nothing
    else, the same in check mode and outside it. *)
Theorem noop_run (p : params) (check_mode : bool) (w : World)
    (out err : string) (w' : World) (C : gset string) :
  let enabled := default [] (p_enabled p) in
  let disabled := default [] (p_disabled p) in
  let status := parse_out out in
  required_if_missing p = false →
  run_command (status_args pro) w = ((0%Z, out, err), w') →
  Plan.attach_needed (p_state p) enabled disabled (_status_attached status) = false →
  Plan.detach_needed (p_state p) (_status_attached status) = false →
  _collect_enabled_services status = inr C →
  Plan.to_enable enabled C = [] →
  Plan.to_disable disabled C = [] →
  the_run p check_mode w
  = (ExitJson {[ "changed" := PBool false; "status" := status ]},
     MState w' [(status_args pro, (0%Z, out, err))]).
Proof.
  intros enabled disabled status Hreq Hrun Han Hdn HC Hte Htd.
  assert (bool_decide (p_state p = Some Detached)
          && (nonempty enabled || nonempty disabled) = false) as Hdet.
  { revert Han Hdn. unfold Plan.attach_needed, Plan.detach_needed.
    destruct (bool_decide (p_state p = Some Detached)),
      (bool_decide (p_state p = Some Attached)), (nonempty enabled),
      (nonempty disabled), (_status_attached status); simpl; congruence. }
  assert ((<["changed" := PBool false]>
             (<["status" := status]> {[ "changed" := PBool false ]})
           : gmap string pyval)
          = {[ "changed" := PBool false; "status" := status ]}) as Hkw.
  { apply map_eq. intros k.
    destruct (decide (k = "changed")) as [-> | ?]; [by simplify_map_eq|].
    destruct (decide (k = "status")) as [-> | ?]; by simplify_map_eq. }
  unfold run. rewrite main_prelude. fold enabled disabled.
  rewrite Hreq, Hdet. simpl world. simpl calls. rewrite Hrun. simpl.
  fold status. rewrite Han, HC, Hdn, Hte, Htd. simpl.
  destruct check_mode.
  - unfold check_mode_exit, check_mode_result, exit_json. simpl. by rewrite Hkw.
  - unfold execute_plan, attach_or_detach, enable_step, disable_step, final_status.
    simpl. unfold mbind, M_bind, mret, M_ret, exit_json. simpl. by rewrite Hkw.
Qed.

(** X15: a detach that succeeds is followed by a last status read and
    nothing else: the run makes the three invocations status, detach,
    status, and exits with [changed] true, the parsed output of the
    detach as [detach_result] and the status read last. *)
Theorem detach_run (p : params) (w : World) (C : gset string)
    (out1 err1 out2 err2 out3 err3 : string) (w1 w2 w3 : World) :
  let detach_args := [pro; "detach"; "--assume-yes"; "--format=json"] in
  p_state p = Some Detached →
  default [] (p_enabled p) = [] →
  default [] (p_disabled p) = [] →
  run_command (status_args pro) w = ((0%Z, out1, err1), w1) →
  _status_attached (parse_out out1) = true →
  _collect_enabled_services (parse_out out1) = inr C →
  run_command detach_args w1 = ((0%Z, out2, err2), w2) →
  run_command (status_args pro) w2 = ((0%Z, out3, err3), w3) →
  the_run p false w
  = (ExitJson {[ "changed" := PBool true; "detach_result" := parse_out out2;
                 "status" := parse_out out3 ]},
     MState w3 [(status_args pro, (0%Z, out1, err1));
                (detach_args, (0%Z, out2, err2));
                (status_args pro, (0%Z, out3, err3))]).
Proof.
  intros detach_args Hstate Hen Hdis Hrun1 Hatt HC Hrun2 Hrun3.
  unfold run. rewrite main_prelude.
  unfold required_if_missing, Plan.attach_needed, Plan.detach_needed.
  rewrite Hstate, Hen, Hdis. simpl world. simpl calls.
  rewrite Hrun1. simpl. rewrite Hatt, HC. simpl.
  unfold execute_plan, attach_or_detach, _maybe_detach. simpl.
  rewrite !bind_run, execute_run. simpl world. simpl calls. fold detach_args.
  rewrite Hrun2. simpl.
  unfold enable_step, disable_step, final_status.
  unfold Plan.to_enable, Plan.to_disable. simpl.
  repeat (progress (rewrite ?bind_run, ?get_status_run; unfold mret, M_ret;
                    cbv beta iota zeta; simpl world; simpl calls; rewrite ?Hrun3)).
  unfold exit_json. do 2 f_equal.
  all: try (apply map_eq; intros k;
            destruct (decide (k = "changed")) as [-> | ?]; [by simplify_map_eq|];
            destruct (decide (k = "status")) as [-> | ?]; [by simplify_map_eq|];
            destruct (decide (k = "detach_result")) as [-> | ?]; by simplify_map_eq).
Qed.

Lemma execute_plan_noop (token : option string) (enabled disabled te td : list string)
    (result : gmap string pyval) (st : mstate World) :
  nonempty te = false → nonempty td = false →
  execute_plan run_command json_loads pro false false token enabled disabled
    te td result st
  = (ExitJson (<["changed" := PBool false]> result), st).
Proof.
  intros Hte Htd.
  unfold execute_plan, attach_or_detach, enable_step, disable_step, final_status.
  cbv beta iota zeta delta [mbind M_bind mret M_ret andb].
  rewrite Hte. cbv beta iota zeta. rewrite Htd. reflexivity.
Qed.

Lemma execute_plan_changed (an dn : bool) (token : option string)
    (enabled disabled te td : list string) (result : gmap string pyval)
    (st st' : mstate World) (kw : gmap string pyval) :
  execute_plan run_command json_loads pro an dn token enabled disabled
    te td result st = (ExitJson kw, st') →
  an && negb (token_given token) = false →
  an || dn || nonempty te || nonempty td = true →
  kw !! "changed" = Some (PBool true).
Proof.
  intros Hrun Htoken Hplan. plan_cases Hrun; simplify_map_eq; try done.
  all: try destruct an; try destruct dn; destruct (token_given token);
    simpl in *; congruence.
Qed.

(** X16: check mode predicts what the run does.  A run that exits in
    check mode with a given [changed] exits outside check mode, when it
    does, with the same [changed]; when the prediction is that nothing
    changes, the run outside check mode is the same run, with the same
    result; and a check-mode run that fails is the same failure outside
    check mode. *)
Theorem check_mode_faithful (p : params) (w : World) :
  (∀ kw st,
     the_run p true w = (ExitJson kw, st) →
     ∃ b : bool,
       kw !! "changed" = Some (PBool b) ∧
       (∀ kw' st', the_run p false w = (ExitJson kw', st') →
                   kw' !! "changed" = Some (PBool b)) ∧
       (b = false → the_run p false w = the_run p true w)) ∧
  ((∀ kw, (the_run p true w).1 ≠ ExitJson kw) →
   the_run p false w = the_run p true w).
Proof.
  unfold run. rewrite !main_prelude. simpl world. simpl calls.
  destruct (required_if_missing p); [by split|].
  destruct (bool_decide _ && (_ || _)); [by split|].
  destruct (run_command (status_args pro) w) as [[[rc out] err] w'].
  destruct (rc =? 0)%Z; [|by split]. cbv zeta.
  destruct (Plan.attach_needed _ _ _ _ && negb _) eqn:Htoken; [by split|].
  destruct (_collect_enabled_services (parse_out out)) as [e | C]; [by split|].
  set (an := Plan.attach_needed _ _ _ _) in *.
  set (dn := Plan.detach_needed _ _).
  set (te := Plan.to_enable _ _). set (td := Plan.to_disable _ _).
  set (result := <["status" := parse_out out]> {[ "changed" := PBool false ]}).
  set (st1 := MState w' _).
  split; [|intros Hfail; by destruct (Hfail (check_mode_result an dn te td result))].
  intros kw st [= <- <-]. exists (an || dn || nonempty te || nonempty td).
  split; [apply check_mode_result_lookup|]. split.
  - intros kw' st' Hrun.
    destruct (an || dn || nonempty te || nonempty td) eqn:Hplan.
    + by apply (execute_plan_changed _ _ _ _ _ _ _ _ _ _ _ Hrun).
    + apply orb_false_iff in Hplan as [[[-> ->]%orb_false_iff Hte]%orb_false_iff Htd].
      rewrite (execute_plan_noop _ _ _ _ _ _ _ Hte Htd) in Hrun.
      injection Hrun as <- _. by simplify_map_eq.
  - intros [[[-> ->]%orb_false_iff Hte]%orb_false_iff Htd]%orb_false_iff.
    rewrite (execute_plan_noop _ _ _ _ _ _ _ Hte Htd).
    unfold check_mode_exit, check_mode_result, exit_json. by rewrite Hte, Htd.
Qed.

(** X17: outside check mode the lists a run reports are the lists it
    acted upon: the result holds [enabled] with given services exactly
    when the run made the enable invocation for those services, and
    [disabled] exactly when it made the disable invocation for them. *)
Theorem report_matches_invocations (p : params) (w : World)
    (kw : gmap string pyval) (st : mstate World) (services : list string) :
  the_run p false w = (ExitJson kw, st) →
  (kw !! "enabled" = Some (str_list services)
   ↔ ∃ a, ([pro; "enable"; "--assume-yes"; "--format=json"] ++ services, a)
          ∈ calls st) ∧
  (kw !! "disabled" = Some (str_list services)
   ↔ ∃ a, ([pro; "disable"; "--assume-yes"; "--format=json"] ++ services, a)
          ∈ calls st).
Proof.
  intros Hrun. run_cases Hrun; try plan_cases Hrun; simpl; unfold status_args.
  all: simplify_map_eq; repeat setoid_rewrite elem_of_cons;
    repeat setoid_rewrite elem_of_nil.
  all: split;
    (split;
     [ intros Heq; try discriminate Heq;
       apply (inj Some), str_list_inj in Heq; subst; eexists; eauto 10
     | intros [a Hin]; repeat destruct Hin as [Hin | Hin]; simplify_eq; done ]).
Qed.
End Sequencing.

(** ** Further properties of runs, on the scripted machine *)

Lemma run_in_order_witness :
  kind <$> calls sample_attach_run.2 `sublist_of` run_order ∧
  (List.length (calls sample_attach_run.2) ≤ 6)%nat.
Proof.
  destruct (run_in_order scripted sample_loads sample_pro
              (Params (Some Attached) (Some "C1xyz") (Some ["livepatch"]) None) false
              [(0%Z, json_field "attached" "false", ""); (0%Z, "", "");
               (0%Z, json_field "attached" "true", ""); (0%Z, "", "");
               (0%Z, json_field "attached" "true", "")])
    as (Horder & _ & _ & Hlen).
  split; [exact Horder | exact Hlen].
Defined.

Lemma changed_iff_action_witness :
  ∃ b : bool,
    exit_kwargs sample_enable_run !! "changed" = Some (PBool b) ∧
    (b = true ↔ is_Some (exit_kwargs sample_enable_run !! "attach_result")
                ∨ is_Some (exit_kwargs sample_enable_run !! "detach_result")
                ∨ is_Some (exit_kwargs sample_enable_run !! "enable_result")
                ∨ is_Some (exit_kwargs sample_enable_run !! "disable_result")) ∧
    (b = false ↔ List.length (calls sample_enable_run.2) = 1%nat).
Proof.
  apply (changed_iff_action scripted sample_loads sample_pro
           (Params None None (Some ["livepatch"]) None)
           [(0%Z, json_field "attached" "true", ""); (0%Z, "", "");
            (0%Z, json_field "attached" "true", "")]).
  vm_compute. reflexivity.
Defined.

Lemma result_fields_paired_witness :
  is_Some (exit_kwargs sample_enable_run !! "status") ∧
  (is_Some (exit_kwargs sample_enable_run !! "enabled")
   ↔ is_Some (exit_kwargs sample_enable_run !! "enable_result")).
Proof.
  destruct (result_fields_paired scripted sample_loads sample_pro
              (Params None None (Some ["livepatch"]) None) false
              [(0%Z, json_field "attached" "true", ""); (0%Z, "", "");
               (0%Z, json_field "attached" "true", "")]
              (exit_kwargs sample_enable_run) sample_enable_run.2)
    as (Hstatus & _ & _ & Hpair).
  - vm_compute. reflexivity.
  - split; [exact Hstatus | exact (proj1 (Hpair eq_refl))].
Defined.

Lemma returned_status_fresh_witness :
  ∃ log out err,
    calls sample_enable_run.2 = log ++ [(status_args sample_pro, (0%Z, out, err))] ∧
    exit_kwargs sample_enable_run !! "status" = Some (parsed sample_loads out).
Proof.
  apply (returned_status_fresh scripted sample_loads sample_pro
           (Params None None (Some ["livepatch"]) None) false
           [(0%Z, json_field "attached" "true", ""); (0%Z, "", "");
            (0%Z, json_field "attached" "true", "")]).
  vm_compute. reflexivity.
Defined.

Lemma post_attach_recompute_witness :
  ∃ C, _collect_enabled_services
         (parsed sample_loads (json_field "attached" "true")) = inr C ∧
       ["livepatch"] = Plan.to_enable ["livepatch"] C.
Proof.
  apply (post_attach_recompute scripted sample_loads sample_pro
           (Params (Some Attached) (Some "C1xyz") (Some ["livepatch"]) None) false
           [(0%Z, json_field "attached" "false", ""); (0%Z, "", "");
            (0%Z, json_field "attached" "true", ""); (0%Z, "", "");
            (0%Z, json_field "attached" "true", "")]
           (status_args sample_pro, (0%Z, json_field "attached" "false", ""))
           "C1xyz" (0%Z, "", "") 0%Z (json_field "attached" "true") ""
           [([sample_pro; "enable"; "--assume-yes"; "--format=json"; "livepatch"],
             (0%Z, "", ""));
            (status_args sample_pro, (0%Z, json_field "attached" "true", ""))]
           ltac:(vm_compute; reflexivity) ["livepatch"] (0%Z, "", "")).
  apply list_elem_of_here.
Defined.

Lemma detached_with_lists_rejected_witness :
  sample_run (Params (Some Detached) None (Some ["livepatch"]) None) true []
  = (FailJson {[ "msg" := PStr "enabled/disabled cannot be used with state=detached" ]},
     MState [] []).
Proof.
  apply (detached_with_lists_rejected scripted sample_loads sample_pro
           (Params (Some Detached) None (Some ["livepatch"]) None) true []);
    [reflexivity | left; discriminate].
Defined.

Lemma noop_run_witness :
  sample_run (Params (Some Attached) (Some "C1xyz") None None) false
    [(0%Z, json_field "attached" "true", "")]
  = (ExitJson {[ "changed" := PBool false;
                 "status" := parsed sample_loads (json_field "attached" "true") ]},
     MState [] [(status_args sample_pro, (0%Z, json_field "attached" "true", ""))]).
Proof.
  apply (noop_run scripted sample_loads sample_pro
           (Params (Some Attached) (Some "C1xyz") None None) false
           [(0%Z, json_field "attached" "true", "")]
           (json_field "attached" "true") "" [] ∅);
    reflexivity.
Defined.

Lemma detach_run_witness :
  sample_run (Params (Some Detached) None None None) false
    [(0%Z, json_field "attached" "true", ""); (0%Z, "{}", "");
     (0%Z, json_field "attached" "false", "")]
  = (ExitJson {[ "changed" := PBool true;
                 "detach_result" := parsed sample_loads "{}";
                 "status" := parsed sample_loads (json_field "attached" "false") ]},
     MState [] [(status_args sample_pro, (0%Z, json_field "attached" "true", ""));
                ([sample_pro; "detach"; "--assume-yes"; "--format=json"],
                 (0%Z, "{}", ""));
                (status_args sample_pro, (0%Z, json_field "attached" "false", ""))]).
Proof.
  apply (detach_run scripted sample_loads sample_pro
           (Params (Some Detached) None None None)
           [(0%Z, json_field "attached" "true", ""); (0%Z, "{}", "");
            (0%Z, json_field "attached" "false", "")] ∅
           (json_field "attached" "true") "" "{}" ""
           (json_field "attached" "false") ""
           [(0%Z, "{}", ""); (0%Z, json_field "attached" "false", "")]
           [(0%Z, json_field "attached" "false", "")] []);
    reflexivity.
Defined.

Lemma check_mode_faithful_witness :
  ∃ b : bool,
    exit_kwargs (sample_run (Params None None (Some ["livepatch"]) None) true
                   [(0%Z, json_field "attached" "true", ""); (0%Z, "", "");
                    (0%Z, json_field "attached" "true", "")])
      !! "changed" = Some (PBool b) ∧
    exit_kwargs sample_enable_run !! "changed" = Some (PBool b).
Proof.
  destruct (proj1 (check_mode_faithful scripted sample_loads sample_pro
                     (Params None None (Some ["livepatch"]) None)
                     [(0%Z, json_field "attached" "true", ""); (0%Z, "", "");
                      (0%Z, json_field "attached" "true", "")])
              (exit_kwargs (sample_run (Params None None (Some ["livepatch"]) None) true
                              [(0%Z, json_field "attached" "true", ""); (0%Z, "", "");
                               (0%Z, json_field "attached" "true", "")]))
              (MState [(0%Z, "", ""); (0%Z, json_field "attached" "true", "")]
                 [(status_args sample_pro, (0%Z, json_field "attached" "true", ""))]))
    as (b & Hb & Hsame & _).
  - vm_compute. reflexivity.
  - exists b. split; [exact Hb|].
    apply (Hsame (exit_kwargs sample_enable_run) sample_enable_run.2).
    vm_compute. reflexivity.
Defined.

Lemma report_matches_invocations_witness :
  exit_kwargs sample_enable_run !! "enabled" = Some (str_list ["livepatch"])
  ↔ ∃ a, ([sample_pro; "enable"; "--assume-yes"; "--format=json"] ++ ["livepatch"], a)
         ∈ calls sample_enable_run.2.
Proof.
  apply (report_matches_invocations scripted sample_loads sample_pro
           (Params None None (Some ["livepatch"]) None)
           [(0%Z, json_field "attached" "true", ""); (0%Z, "", "");
            (0%Z, json_field "attached" "true", "")]
           (exit_kwargs sample_enable_run) sample_enable_run.2 ["livepatch"]).
  vm_compute. reflexivity.
Defined.
